(** * Applio voice-converter API: the asynchronous TTS task layer

    A shallow embedding of [src/api.py]: the in-memory task dictionary
    [tts_tasks], the background worker [process_tts_task], the four HTTP
    handlers and one iteration of the periodic [cleanup_old_tasks] loop;
    and of the two string methods the Notion client [src/get_data.py]
    builds its text processing on.

    Modelling choices.
    - [tts_tasks] is a Python [dict]: an insertion-ordered map.  The order is
      observable (the sweep walks the dictionary in that order and stops at
      the first exception), so it is an association list here.
    - A task is a Python [dict] with the fixed keys ["status"],
      ["created_at"], ["request"] and the keys ["completed_at"],
      ["output_file"], ["error"] that [dict.update] adds later: a record whose
      last three fields are options ([None] = key absent, what [dict.get]
      returns [None] for).
    - [datetime] values are integers, microseconds on the naive local time
      line; [isoformat]/[fromisoformat] round-trip and are left out.
    - The file system is the set of directories that exist.  Task ids are
      [uuid4] strings, so the working directories [temp_tts_<id>] are
      siblings.  [os.makedirs] and [shutil.rmtree] can raise; whether they do
      is an input of the operation that calls them ([None] = success,
      [Some msg] = [OSError] with that text).
    - [process_tts_task] is a coroutine with one suspension point, the
      [await] on the executor that runs [run_tts_script].  asyncio runs every
      other statement without interleaving, so the coroutine is two atomic
      steps with a saved frame of locals in between.  [run_tts_script] lives
      in [core] (not part of this layer): its outcome is an input. *)

From stdpp Require Import base strings list gmap.
From Stdlib Require Import ZArith Lia.

#[local] Set Warnings "-clear-no-such-hyp".

Open Scope string_scope.
Open Scope Z_scope.

(** ** Python dictionaries in insertion order *)

Abbreviation Dict V := (list (string * V)).

Section Dict.
Context {V : Type}.

(** [d.get(k)]; [None] also stands for the [KeyError] of [d[k]]. *)
Fixpoint dict_get (k : string) (d : Dict V) : option V :=
  match d with
  | [] => None
  | (k', v) :: rest => if decide (k = k') then Some v else dict_get k rest
  end.

(** [d[k] = v]: an existing key keeps its position, a new one goes last. *)
Fixpoint dict_set (k : string) (v : V) (d : Dict V) : Dict V :=
  match d with
  | [] => [(k, v)]
  | (k', v') :: rest =>
      if decide (k = k') then (k', v) :: rest else (k', v') :: dict_set k v rest
  end.

(** The dictionary without the key [k] (keys are unique: one entry). *)
Fixpoint dict_remove (k : string) (d : Dict V) : Dict V :=
  match d with
  | [] => []
  | (k', v') :: rest =>
      if decide (k = k') then dict_remove k rest
      else (k', v') :: dict_remove k rest
  end.

(** [del d[k]]; [None] is the [KeyError] of a missing key. *)
Definition dict_del (k : string) (d : Dict V) : option (Dict V) :=
  match dict_get k d with
  | None => None
  | Some _ => Some (dict_remove k d)
  end.

Definition dict_keys (d : Dict V) : list string := d.*1.
End Dict.

(** ** Data model *)

(** [TTSRequest]: the orchestration layer reads [export_format] and hands
    every field to [run_tts_script] unchanged; the engine's outcome is an
    input of the model, so the remaining fields are not listed. *)
Record TTSRequest := {
  tts_text : string;
  tts_voice : string;
  export_format : string;
}.

(** One value of [tts_tasks]. *)
Record Task := {
  status : string;
  created_at : Z;
  request : TTSRequest;
  completed_at : option Z;
  output_file : option string;
  error : option string;
}.

Module TTSResponse.
Record t := mk { task_id : string; status : string; created_at : Z }.
End TTSResponse.

Module TTSStatus.
Record t := mk {
  task_id : string;
  status : string;
  created_at : Z;
  completed_at : option Z;
  output_file : option string;
  error : option string;
}.
End TTSStatus.

(** Exceptions that occur in this layer. [EngineError msg] is any
    [Exception] that leaves [run_tts_script] (or the unpacking of its
    result), with [str(e) = msg]. *)
Inductive Exc :=
| HTTPException (status_code : Z) (detail : string)
| KeyError (key : string)
| OSError (msg : string)
| EngineError (msg : string)
| UnboundLocalError (var : string).

(** [str(e)] *)
Definition str (e : Exc) : string :=
  match e with
  | HTTPException c d => d
  | KeyError k => "'" +:+ k +:+ "'"
  | OSError m => m
  | EngineError m => m
  | UnboundLocalError v =>
      "cannot access local variable '" +:+ v
        +:+ "' where it is not associated with a value"
  end.

Inductive Result (A : Type) :=
| Return (a : A)
| Raise (e : Exc).
Arguments Return {A} a.
Arguments Raise {A} e.

(** What the handlers and the worker read and write: the global dictionary
    and the directories on disk. *)
Record World := {
  tts_tasks : Dict Task;
  fs : gset string;
}.

Definition with_tasks (d : Dict Task) (w : World) : World :=
  {| tts_tasks := d; fs := fs w |}.

Definition with_fs (f : gset string) (w : World) : World :=
  {| tts_tasks := tts_tasks w; fs := f |}.

(** [f"temp_tts_{task_id}"] *)
Definition temp_dir_of (task_id : string) : string := "temp_tts_" +:+ task_id.

(** [os.path.join(a, b)] for a non-empty [a] without trailing separator. *)
Definition path_join (a b : string) : string := a +:+ "/" +:+ b.

(** ** The background worker, [process_tts_task] *)

(** The locals of the coroutine that the [try] block assigns. *)
Record Locals := {
  temp_dir : option string;
  tts_output : option string;
  rvc_output : option string;
}.

Definition no_locals : Locals :=
  {| temp_dir := None; tts_output := None; rvc_output := None |}.

(** [task.update({"status": "failed", "completed_at": now, "error": msg})] *)
Definition update_failed (now : Z) (msg : string) (task : Task) : Task :=
  {| status := "failed"; created_at := created_at task;
     request := request task; completed_at := Some now;
     output_file := output_file task; error := Some msg |}.

(** [task.update({"status": "completed", "completed_at": now,
    "output_file": out})] *)
Definition update_completed (now : Z) (out : string) (task : Task) : Task :=
  {| status := "completed"; created_at := created_at task;
     request := request task; completed_at := Some now;
     output_file := Some out; error := error task |}.

(** [task["status"] = "processing"] *)
Definition set_processing (task : Task) : Task :=
  {| status := "processing"; created_at := created_at task;
     request := request task; completed_at := completed_at task;
     output_file := output_file task; error := error task |}.

(** The [except Exception as e:] block (lines 124-136), run with the locals
    as they are when the exception is caught.  It always ends in an
    exception: [e] itself through [raise e], or one raised on the way. *)
Definition except_block (task_id : string) (loc : Locals) (e : Exc)
    (now : Z) (rm : option string) (w : World) : World * Exc :=
  match dict_get task_id (tts_tasks w) with
  | None => (w, KeyError task_id)
  | Some task =>
      let w1 :=
        with_tasks (dict_set task_id (update_failed now (str e) task) (tts_tasks w)) w in
      match temp_dir loc with
      | None => (w1, UnboundLocalError "temp_dir")
      | Some d =>
          if decide (d ∈ fs w1) then
            match rm with
            | Some msg => (w1, OSError msg)
            | None => (with_fs (fs w1 ∖ {[d]}) w1, e)
            end
          else (w1, e)
      end
  end.

(** How a part of the [try] block ends: it runs through, or an exception is
    caught, and the handler then sees the locals assigned so far. *)
Inductive TryResult (A : Type) :=
| Through (a : A)
| Caught (loc : Locals) (e : Exc).
Arguments Through {A} a.
Arguments Caught {A} loc e.

(** The [try] block up to the [await] (lines 77-88): [mk] is the outcome of
    [os.makedirs].  Running through means reaching the [await] with the
    locals to keep in the frame. *)
Definition try_before_await (task_id : string) (req : TTSRequest)
    (mk : option string) (w : World) : World * TryResult Locals :=
  let loc1 :=
    {| temp_dir := Some (temp_dir_of task_id);
       tts_output := tts_output no_locals; rvc_output := rvc_output no_locals |} in
  match mk with
  | Some msg => (w, Caught loc1 (OSError msg))
  | None =>
      let w1 := with_fs ({[temp_dir_of task_id]} ∪ fs w) w in
      let loc3 :=
        {| temp_dir := temp_dir loc1;
           tts_output := Some (path_join (temp_dir_of task_id) "tts_output.wav");
           rvc_output :=
             Some (path_join (temp_dir_of task_id)
                     ("rvc_output." +:+ export_format req)) |} in
      match dict_get task_id (tts_tasks w1) with
      | None => (w1, Caught loc3 (KeyError task_id))
      | Some task =>
          (with_tasks (dict_set task_id (set_processing task) (tts_tasks w1)) w1,
           Through loc3)
      end
  end.

(** What the awaited [run_tts_script] call produced. *)
Inductive EngineResult :=
| EngineReturn (message output_file : string)
| EngineRaise (msg : string).

(** The rest of the [try] block (lines 88-122), from the resumption of the
    [await]: [loc] are the locals of the suspended frame. *)
Definition try_after_await (task_id : string) (loc : Locals)
    (res : EngineResult) (now : Z) (w : World) : World * TryResult unit :=
  match res with
  | EngineRaise msg => (w, Caught loc (EngineError msg))
  | EngineReturn _ out =>
      match dict_get task_id (tts_tasks w) with
      | None => (w, Caught loc (KeyError task_id))
      | Some task =>
          (with_tasks (dict_set task_id (update_completed now out task) (tts_tasks w)) w,
           Through tt)
      end
  end.

Inductive Started :=
| Suspended (loc : Locals)
| Raised (e : Exc).

(** [process_tts_task] from its start to the [await]; [rm] is the outcome of
    [shutil.rmtree] should the handler call it. *)
Definition process_tts_task_start (task_id : string) (req : TTSRequest)
    (mk : option string) (now : Z) (rm : option string) (w : World)
    : World * Started :=
  match try_before_await task_id req mk w with
  | (w1, Through loc) => (w1, Suspended loc)
  | (w1, Caught loc e) =>
      let '(w', e') := except_block task_id loc e now rm w1 in
      (w', Raised e')
  end.

(** [process_tts_task] from the resumption of the [await] to its end. *)
Definition process_tts_task_resume (task_id : string) (loc : Locals)
    (res : EngineResult) (now : Z) (rm : option string) (w : World)
    : World * Result unit :=
  match try_after_await task_id loc res now w with
  | (w1, Through _) => (w1, Return tt)
  | (w1, Caught loc' e) =>
      let '(w', e') := except_block task_id loc' e now rm w1 in
      (w', Raise e')
  end.

(** ** The HTTP handlers *)

(** [text_to_speech]: [task_id] is the value of [uuid.uuid4()], [now] of
    [datetime.now()].  Returns the new dictionary, the background task that
    was added and the response. *)
Definition text_to_speech (task_id : string) (now : Z) (req : TTSRequest)
    (w : World) : World * (string * TTSRequest) * TTSResponse.t :=
  let task :=
    {| status := "pending"; created_at := now; request := req;
       completed_at := None; output_file := None; error := None |} in
  (with_tasks (dict_set task_id task (tts_tasks w)) w,
   (task_id, req),
   TTSResponse.mk task_id "pending" now).

Definition get_tts_status (task_id : string) (w : World) : Result TTSStatus.t :=
  match dict_get task_id (tts_tasks w) with
  | None => Raise (HTTPException 404 "Task not found")
  | Some task =>
      Return (TTSStatus.mk task_id (status task) (created_at task)
                (completed_at task) (output_file task) (error task))
  end.

(** Python truthiness of an optional string such as
    [task.get("output_file")]: [None] and [""] are false. *)
Definition truthy (o : option string) : bool :=
  match o with
  | None => false
  | Some s => negb (String.eqb s "")
  end.

(** [get_tts_result]: [Return p] is [FileResponse(p)], built from the path
    alone; the handler makes no file-system call. *)
Definition get_tts_result (task_id : string) (w : World) : Result string :=
  match dict_get task_id (tts_tasks w) with
  | None => Raise (HTTPException 404 "Task not found")
  | Some task =>
      if negb (String.eqb (status task) "completed") then
        Raise (HTTPException 400
                 ("Task is not completed. Current status: " +:+ status task))
      else
        match output_file task with
        | Some p =>
            if String.eqb p "" then
              Raise (HTTPException 404 "Output file not found")
            else Return p
        | None => Raise (HTTPException 404 "Output file not found")
        end
  end.

(** [delete_tts_task] *)
Definition delete_tts_task (task_id : string) (rm : option string) (w : World)
    : World * Result string :=
  match dict_get task_id (tts_tasks w) with
  | None => (w, Raise (HTTPException 404 "Task not found"))
  | Some task =>
      let d := temp_dir_of task_id in
      let ok (w1 : World) :=
        match dict_del task_id (tts_tasks w1) with
        | None => (w1, Raise (KeyError task_id))
        | Some d' =>
            (with_tasks d' w1,
             Return ("Task " +:+ task_id +:+ " deleted successfully"))
        end in
      if decide (d ∈ fs w) then
        match rm with
        | Some msg => (w, Raise (OSError msg))
        | None => ok (with_fs (fs w ∖ {[d]}) w)
        end
      else ok w
  end.

(** ** One iteration of [cleanup_old_tasks] *)

Definition microseconds_per_day : Z := 86400000000.

(** [timedelta.days]: a [timedelta] is normalised so that [days] is the
    floor of the difference divided by one day. *)
Definition days (delta : Z) : Z := delta `div` microseconds_per_day.

(** [(current_time - created_at).days >= 1] *)
Definition expired (current_time : Z) (task : Task) : bool :=
  1 <=? days (current_time - created_at task).

(** First loop (lines 232-236). *)
Definition tasks_to_delete (current_time : Z) (d : Dict Task) : list string :=
  (filter (λ p, expired current_time p.2 = true) d).*1.

(** Second loop (lines 238-242): [rm dir] is the outcome of
    [shutil.rmtree(dir)]. *)
Fixpoint delete_loop (ids : list string) (rm : string → option string)
    (w : World) : World * Result unit :=
  match ids with
  | [] => (w, Return tt)
  | task_id :: rest =>
      let d := temp_dir_of task_id in
      let del (w1 : World) :=
        match dict_del task_id (tts_tasks w1) with
        | None => (w1, Raise (KeyError task_id))
        | Some d' => delete_loop rest rm (with_tasks d' w1)
        end in
      if decide (d ∈ fs w) then
        match rm d with
        | Some msg => (w, Raise (OSError msg))
        | None => del (with_fs (fs w ∖ {[d]}) w)
        end
      else del w
  end.

(** The body of the [while True] loop, without the [sleep]. *)
Definition cleanup_old_tasks (current_time : Z) (rm : string → option string)
    (w : World) : World * Result unit :=
  delete_loop (tasks_to_delete current_time (tts_tasks w)) rm w.

(** ** The running service

    The asyncio event loop interleaves request handlers, worker steps and
    sweep iterations; each of them runs atomically between two [await]s. *)

Record State := {
  world : World;
  (** added with [background_tasks.add_task] and not started yet *)
  background : Dict TTSRequest;
  (** coroutine frames suspended at the [await] of the engine call *)
  awaiting : Dict Locals;
  (** the values [uuid.uuid4()] has returned so far *)
  issued : gset string;
  (** the [cleanup_old_tasks] coroutine has not died of an exception *)
  sweeper : bool;
}.

(** The process starts with an empty dictionary on some disk. *)
Definition initial (disk : gset string) : State :=
  {| world := {| tts_tasks := []; fs := disk |};
     background := []; awaiting := []; issued := ∅; sweeper := true |}.

Inductive Event :=
| Submit (task_id : string) (now : Z) (req : TTSRequest)
| WorkerStart (task_id : string) (mk : option string) (now : Z) (rm : option string)
| WorkerResume (task_id : string) (res : EngineResult) (now : Z) (rm : option string)
| GetStatus (task_id : string)
| GetResult (task_id : string)
| DeleteTask (task_id : string) (rm : option string)
| SweepTick (now : Z) (rm : string → option string).

(** What the event's caller sees. *)
Inductive Obs :=
| Submitted (r : TTSResponse.t)
| WorkerStarted (r : Started)
| WorkerEnded (r : Result unit)
| StatusReply (r : Result TTSStatus.t)
| ResultReply (r : Result string)
| DeleteReply (r : Result string)
| SweepEnded (r : Result unit).

(** One atomic step; [None] when the event cannot happen in this state
    ([uuid4] does not repeat a value, a worker step needs its coroutine, a
    dead sweeper does not tick). *)
Definition step (s : State) (ev : Event) : option (State * Obs) :=
  match ev with
  | Submit task_id now req =>
      if decide (task_id ∈ issued s) then None
      else
        let '(w', bg, r) := text_to_speech task_id now req (world s) in
        Some ({| world := w'; background := dict_set bg.1 bg.2 (background s);
                 awaiting := awaiting s; issued := {[task_id]} ∪ issued s;
                 sweeper := sweeper s |}, Submitted r)
  | WorkerStart task_id mk now rm =>
      match dict_get task_id (background s) with
      | None => None
      | Some req =>
          let '(w', r) := process_tts_task_start task_id req mk now rm (world s) in
          Some ({| world := w'; background := dict_remove task_id (background s);
                   awaiting :=
                     match r with
                     | Suspended loc => dict_set task_id loc (awaiting s)
                     | Raised _ => awaiting s
                     end;
                   issued := issued s; sweeper := sweeper s |}, WorkerStarted r)
      end
  | WorkerResume task_id res now rm =>
      match dict_get task_id (awaiting s) with
      | None => None
      | Some loc =>
          let '(w', r) := process_tts_task_resume task_id loc res now rm (world s) in
          Some ({| world := w'; background := background s;
                   awaiting := dict_remove task_id (awaiting s);
                   issued := issued s; sweeper := sweeper s |}, WorkerEnded r)
      end
  | GetStatus task_id => Some (s, StatusReply (get_tts_status task_id (world s)))
  | GetResult task_id => Some (s, ResultReply (get_tts_result task_id (world s)))
  | DeleteTask task_id rm =>
      let '(w', r) := delete_tts_task task_id rm (world s) in
      Some ({| world := w'; background := background s; awaiting := awaiting s;
               issued := issued s; sweeper := sweeper s |}, DeleteReply r)
  | SweepTick now rm =>
      if sweeper s then
        let '(w', r) := cleanup_old_tasks now rm (world s) in
        Some ({| world := w'; background := background s; awaiting := awaiting s;
                 issued := issued s;
                 sweeper := match r with Return _ => true | Raise _ => false end |},
              SweepEnded r)
      else None
  end.

(** Running a list of events from a state. *)
Fixpoint run (s : State) (evs : list Event) : option State :=
  match evs with
  | [] => Some s
  | ev :: rest =>
      match step s ev with
      | None => None
      | Some (s', _) => run s' rest
      end
  end.

Inductive reachable : State → Prop :=
| reachable_initial disk : reachable (initial disk)
| reachable_step s ev s' o :
    reachable s → step s ev = Some (s', o) → reachable s'.

(** ** The string methods of the Notion client, [src/get_data.py]

    The first line of [src/get_data.py] starts with a blank, so importing
    the module raises [IndentationError] and none of its functions runs.
    Only the two [str] methods that its text processing is built on
    (["\n".join] in line 87, [split("\n")] in line 213) are modelled. *)

(** The newline character and the one-character string ["\n"]. *)
Definition newline : Ascii.ascii := Ascii.ascii_of_nat 10.

Definition nl : string := String newline "".

(** [s.split("\n")]: never empty, one more piece than there are newlines. *)
Fixpoint split_lines (s : string) : list string :=
  match s with
  | "" => [""]
  | String c rest =>
      if Ascii.eqb c newline then "" :: split_lines rest
      else
        match split_lines rest with
        | [] => [String c ""]
        | l :: ls => String c l :: ls
        end
  end.

(** ["\n".join(ls)] *)
Fixpoint join_lines (ls : list string) : string :=
  match ls with
  | [] => ""
  | l :: rest =>
      match rest with
      | [] => l
      | _ :: _ => l +:+ nl +:+ join_lines rest
      end
  end.

(** Auxiliary: no newline inside a line. *)
Fixpoint one_line (s : string) : bool :=
  match s with
  | "" => true
  | String c rest => negb (Ascii.eqb c newline) && one_line rest
  end.

(** * Auxiliary definitions *)

(** Where the worker of a task stands: its coroutine is queued, suspended at
    the engine call, or gone (ended, or never to update the record again). *)
Inductive Phase := Queued | Running | Finished.

Definition phase_of (s : State) (task_id : string) : Phase :=
  match dict_get task_id (background s), dict_get task_id (awaiting s) with
  | Some _, _ => Queued
  | None, Some _ => Running
  | None, None => Finished
  end.

Definition task_ok (ph : Phase) (t : Task) : Prop :=
  match ph with
  | Queued =>
      status t = "pending" ∧ completed_at t = None
      ∧ output_file t = None ∧ error t = None
  | Running =>
      status t = "processing" ∧ completed_at t = None
      ∧ output_file t = None ∧ error t = None
  | Finished =>
      (status t = "completed" ∧ is_Some (completed_at t)
       ∧ is_Some (output_file t) ∧ error t = None)
      ∨ (status t = "failed" ∧ is_Some (completed_at t)
         ∧ output_file t = None ∧ is_Some (error t))
  end.

Record Inv (s : State) : Prop := {
  inv_task : ∀ id t,
    dict_get id (tts_tasks (world s)) = Some t → task_ok (phase_of s id) t;
  inv_keys : NoDup (dict_keys (tts_tasks (world s)));
  inv_apart : ∀ id,
    is_Some (dict_get id (background s)) → dict_get id (awaiting s) = None;
  inv_issued_task : ∀ id,
    is_Some (dict_get id (tts_tasks (world s))) → id ∈ issued s;
  inv_issued_background : ∀ id,
    is_Some (dict_get id (background s)) → id ∈ issued s;
  inv_issued_awaiting : ∀ id,
    is_Some (dict_get id (awaiting s)) → id ∈ issued s;
  inv_frame : ∀ id loc,
    dict_get id (awaiting s) = Some loc → temp_dir loc = Some (temp_dir_of id);
}.

(** The world without the records of [ids] and without their directories. *)
Definition removed (ids : list string) (w : World) : World :=
  {| tts_tasks := filter (λ p, p.1 ∉ ids) (tts_tasks w);
     fs := fs w ∖ list_to_set (temp_dir_of <$> ids) |}.

Definition hour : Z := 3600000000.

Definition demo_request : TTSRequest :=
  {| tts_text := "Bonjour"; tts_voice := "fr-FR-HenriNeural"; export_format := "wav" |}.

Definition pending_task (now : Z) : Task :=
  {| status := "pending"; created_at := now; request := demo_request;
     completed_at := None; output_file := None; error := None |}.

Definition completed_task (out : string) : Task :=
  {| status := "completed"; created_at := 0; request := demo_request;
     completed_at := Some 5; output_file := Some out; error := None |}.

Definition world_of (d : Dict Task) (dirs : list string) : World :=
  {| tts_tasks := d; fs := list_to_set dirs |}.

(** C7 as stated. *)
Definition missing_artifact_reported : Prop :=
  ∀ (can_open : string → bool) (task_id : string) (w : World) (task : Task) (p : string),
    dict_get task_id (tts_tasks w) = Some task →
    status task = "completed" →
    output_file task = Some p →
    can_open p = false →
    get_tts_result task_id w = Raise (HTTPException 404 "Output file not found").

(** Three tasks created 25, 23 and 1 hours before [now]. *)
Definition three_tasks (now : Z) : World :=
  world_of [("t25", pending_task (now - 25 * hour));
            ("t23", pending_task (now - 23 * hour));
            ("t1", pending_task (now - 1 * hour))]
           ["temp_tts_t25"; "temp_tts_t23"; "temp_tts_t1"].

Definition rmtree_ok : string → option string := λ _, None.

(** C5 as stated: deleted if and only if the age exceeds the window. *)
Definition sweep_deletes_older_only : Prop :=
  ∀ now rm w w', NoDup (dict_keys (tts_tasks w)) →
    cleanup_old_tasks now rm w = (w', Return tt) →
    ∀ id t, dict_get id (tts_tasks w) = Some t →
      (dict_get id (tts_tasks w') = None ↔ microseconds_per_day < now - created_at t).

(** Two expired tasks with their directories, sweeping at 48 hours. *)
Definition two_expired : World :=
  world_of [("a", pending_task 0); ("b", pending_task hour)]
           ["temp_tts_a"; "temp_tts_b"].

(** [rmtree] raises on the directory of task ["a"] only. *)
Definition rmtree_fails_a (dir : string) : option string :=
  if String.eqb dir "temp_tts_a" then Some "Permission denied" else None.

(** C6 as stated. *)
Definition sweep_never_raises : Prop :=
  ∀ now rm w, NoDup (dict_keys (tts_tasks w)) →
    ∃ w', cleanup_old_tasks now rm w = (w', Return tt)
          ∧ ∀ id t, dict_get id (tts_tasks w) = Some t → expired now t = true →
              temp_dir_of id ∉ fs w ∨ rm (temp_dir_of id) = None →
              dict_get id (tts_tasks w') = None.

Definition state_after (evs : list Event) : State :=
  default (initial ∅) (run (initial ∅) evs).

(** A task whose engine call raises an exception with an empty message,
    such as [raise RuntimeError()]. *)
Definition silent_failure : list Event :=
  [Submit "t1" 0 demo_request;
   WorkerStart "t1" None 1 None;
   WorkerResume "t1" (EngineRaise "") 2 None].

Definition successful_run : list Event :=
  [Submit "t1" 0 demo_request;
   WorkerStart "t1" None 1 None;
   WorkerResume "t1" (EngineReturn "done" "temp_tts_t1/rvc_output.wav") 2 None].

(** C1 as stated, with "non-empty" read on the stored string. *)
Definition fields_nonempty_match_status : Prop :=
  ∀ s, reachable s → ∀ id t, dict_get id (tts_tasks (world s)) = Some t →
    (truthy (output_file t) = true ↔ status t = "completed")
    ∧ (truthy (error t) = true ↔ status t = "failed")
    ∧ ¬ (is_Some (output_file t) ∧ is_Some (error t)).

(** The transitions of the specification's state machine. *)
Definition spec_transition (a b : string) : Prop :=
  (a = "pending" ∧ b = "processing")
  ∨ (a = "processing" ∧ b = "completed")
  ∨ (a = "processing" ∧ b = "failed").

(** The transitions the code makes. *)
Definition code_transition (a b : string) : Prop :=
  spec_transition a b ∨ (a = "pending" ∧ b = "failed").

(** C2 as stated. *)
Definition status_follows_spec_machine : Prop :=
  ∀ s ev s' o, reachable s → step s ev = Some (s', o) →
    (∀ id t', dict_get id (tts_tasks (world s)) = None →
       dict_get id (tts_tasks (world s')) = Some t' → status t' = "pending")
    ∧ (∀ id t t', dict_get id (tts_tasks (world s)) = Some t →
         dict_get id (tts_tasks (world s')) = Some t' →
         status t' = status t ∨ spec_transition (status t) (status t')).

Definition submitted : list Event := [Submit "t1" 0 demo_request].

Definition makedirs_fails : Event :=
  WorkerStart "t1" (Some "[Errno 13] Permission denied: 'temp_tts_t1'") 1 None.

Definition started : list Event :=
  [Submit "t1" 0 demo_request; WorkerStart "t1" None 1 None].

Definition engine_blows_up : Event :=
  WorkerResume "t1" (EngineRaise "engine blew up") 2 None.

(** C3 as stated: the failure is recorded and nothing is raised. *)
Definition failure_absorbed : Prop :=
  ∀ s id msg now rm s' o t,
    reachable s →
    step s (WorkerResume id (EngineRaise msg) now rm) = Some (s', o) →
    dict_get id (tts_tasks (world s)) = Some t →
    dict_get id (tts_tasks (world s')) = Some (update_failed now msg t)
    ∧ o = WorkerEnded (Return tt).

(** C4: the task is deleted before its worker starts. *)
Definition deleted_before_start : list Event :=
  [Submit "t1" 0 demo_request; DeleteTask "t1" None].

(** A processing task and the tick that finds its directory undeletable. *)
Definition one_running : list Event :=
  [Submit "a" 0 demo_request; WorkerStart "a" None 1 None].

Definition failing_tick : Event := SweepTick (48 * hour) rmtree_fails_a.

Definition engine_returns : Event :=
  WorkerResume "t1" (EngineReturn "done" "temp_tts_t1/rvc_output.wav") 2 None.

Definition processing_t1 : Task :=
  {| status := "processing"; created_at := 0; request := demo_request;
     completed_at := None; output_file := None; error := None |}.

Definition completed_t1 : Task :=
  {| status := "completed"; created_at := 0; request := demo_request;
     completed_at := Some 2; output_file := Some "temp_tts_t1/rvc_output.wav";
     error := None |}.

(** * Properties *)

(** ** Facts about dictionaries *)

Section DictFacts.
Context {V : Type}.
Implicit Types (d : Dict V) (k : string) (v : V).

Lemma dict_get_set_eq k v d : dict_get k (dict_set k v d) = Some v.
Proof.
  induction d as [|[k' v'] d IH]; simpl; repeat case_decide; simpl;
    repeat case_decide; congruence.
Qed.

Lemma dict_get_set_ne k k' v d :
  k ≠ k' → dict_get k' (dict_set k v d) = dict_get k' d.
Proof.
  intros Hne. induction d as [|[k0 v0] d IH]; simpl; repeat case_decide;
    simpl; repeat case_decide; congruence.
Qed.

Lemma dict_get_set k k' v d :
  dict_get k' (dict_set k v d) = if decide (k = k') then Some v else dict_get k' d.
Proof.
  case_decide; [subst; apply dict_get_set_eq | by apply dict_get_set_ne].
Qed.

Lemma dict_get_remove_eq k d : dict_get k (dict_remove k d) = None.
Proof.
  induction d as [|[k' v'] d IH]; simpl; repeat case_decide; simpl;
    repeat case_decide; congruence.
Qed.

Lemma dict_get_remove_ne k k' d :
  k ≠ k' → dict_get k' (dict_remove k d) = dict_get k' d.
Proof.
  intros Hne. induction d as [|[k0 v0] d IH]; simpl; repeat case_decide;
    simpl; repeat case_decide; congruence.
Qed.

Lemma dict_get_remove k k' d :
  dict_get k' (dict_remove k d) = if decide (k = k') then None else dict_get k' d.
Proof.
  case_decide; [subst; apply dict_get_remove_eq | by apply dict_get_remove_ne].
Qed.

Lemma dict_get_None_keys k d : dict_get k d = None ↔ k ∉ dict_keys d.
Proof.
  unfold dict_keys. induction d as [|[k' v'] d IH]; simpl.
  - split; [intros _; apply not_elem_of_nil | done].
  - rewrite not_elem_of_cons. case_decide; [|tauto].
    split; [done | tauto].
Qed.

Lemma dict_get_Some_elem k v d : dict_get k d = Some v → (k, v) ∈ d.
Proof.
  induction d as [|[k' v'] d IH]; simpl; [done|].
  case_decide; intros; simplify_eq; [left | right; auto].
Qed.

Lemma dict_elem_get k v d : NoDup (dict_keys d) → (k, v) ∈ d → dict_get k d = Some v.
Proof.
  unfold dict_keys. induction d as [|[k' v'] d IH]; simpl.
  - intros _ H. by apply elem_of_nil in H.
  - rewrite NoDup_cons. intros [Hk Hd] [Heq|Hin]%elem_of_cons.
    + simplify_eq. by rewrite decide_True.
    + rewrite decide_False; [auto|].
      intros ->. apply Hk. apply list_elem_of_fmap. by exists (k', v).
Qed.

Lemma dict_keys_set k v d :
  dict_keys (dict_set k v d) =
    match dict_get k d with
    | Some _ => dict_keys d
    | None => (dict_keys d ++ [k])%list
    end.
Proof.
  induction d as [|[k' v'] d IH]; simpl; [done|].
  destruct (decide (k = k')); [done|].
  change (k' :: dict_keys (dict_set k v d) =
          match dict_get k d with
          | Some _ => k' :: dict_keys d
          | None => k' :: (dict_keys d ++ [k])%list
          end).
  rewrite IH. by destruct (dict_get k d).
Qed.

Lemma dict_remove_filter k d :
  dict_remove k d = filter (λ p, p.1 ≠ k) d.
Proof.
  induction d as [|[k' v'] d IH]; [done|].
  cbn [dict_remove]. destruct (decide (k = k')) as [->|Hne].
  - rewrite filter_cons_False; [done | simpl; tauto].
  - rewrite filter_cons_True; [by rewrite IH | simpl; congruence].
Qed.

Lemma NoDup_keys_filter (P : string * V → Prop) `{!∀ p, Decision (P p)} d :
  NoDup (dict_keys d) → NoDup (dict_keys (filter P d)).
Proof.
  unfold dict_keys. induction d as [|p d IH]; simpl; [done|].
  rewrite NoDup_cons. intros [Hp Hd]. rewrite filter_cons.
  case_decide; simpl; [|auto].
  apply NoDup_cons. split; [|auto].
  intros [q [Hq Hin]]%list_elem_of_fmap. apply Hp.
  apply list_elem_of_fmap. exists q. split; [done|].
  by apply list_elem_of_filter in Hin as [_ ?].
Qed.

Lemma NoDup_keys_set k v d :
  NoDup (dict_keys d) → NoDup (dict_keys (dict_set k v d)).
Proof.
  intros Hd. rewrite dict_keys_set.
  destruct (dict_get k d) eqn:Hk; [done|].
  apply NoDup_app. split_and!; [done| |apply NoDup_singleton].
  intros x Hx ->%list_elem_of_singleton. by apply dict_get_None_keys in Hk.
Qed.

Lemma NoDup_keys_remove k d :
  NoDup (dict_keys d) → NoDup (dict_keys (dict_remove k d)).
Proof. rewrite dict_remove_filter. apply NoDup_keys_filter. Qed.
End DictFacts.

Lemma temp_dir_of_inj a b : temp_dir_of a = temp_dir_of b → a = b.
Proof. unfold temp_dir_of. cbn. intros H. by simplify_eq. Qed.

Lemma days_ge_1 delta : 1 ≤ days delta ↔ microseconds_per_day ≤ delta.
Proof.
  unfold days, microseconds_per_day. split; intros H.
  - destruct (Z_lt_le_dec delta 86400000000) as [Hlt|]; [|done].
    assert (delta `div` 86400000000 ≤ 0); [|lia].
    destruct (Z_lt_le_dec delta 0).
    + assert (delta `div` 86400000000 < 0) by (apply Z.div_lt_upper_bound; lia). lia.
    + rewrite Z.div_small; lia.
  - apply Z.div_le_lower_bound; lia.
Qed.

Lemma expired_spec now task :
  expired now task = true ↔ microseconds_per_day ≤ now - created_at task.
Proof. unfold expired. rewrite Z.leb_le. apply days_ge_1. Qed.

(** ** The invariant of the running service *)

Lemma Inv_initial disk : Inv (initial disk).
Proof.
  split; simpl; try done; try (by intros ? []).
  apply NoDup_nil_2.
Qed.

(** How the [except] block changes the dictionary. *)
Lemma except_block_tasks task_id loc e now rm w :
  tts_tasks (except_block task_id loc e now rm w).1 =
    match dict_get task_id (tts_tasks w) with
    | None => tts_tasks w
    | Some t => dict_set task_id (update_failed now (str e) t) (tts_tasks w)
    end.
Proof. unfold except_block. repeat case_match; done. Qed.

Lemma start_cases task_id req mk now rm w :
  match process_tts_task_start task_id req mk now rm w with
  | (w', r) =>
      match dict_get task_id (tts_tasks w), mk with
      | Some t, None =>
          tts_tasks w' = dict_set task_id (set_processing t) (tts_tasks w)
          ∧ ∃ loc, r = Suspended loc ∧ temp_dir loc = Some (temp_dir_of task_id)
      | Some t, Some msg =>
          tts_tasks w' = dict_set task_id (update_failed now msg t) (tts_tasks w)
          ∧ ∃ e, r = Raised e
      | None, _ => tts_tasks w' = tts_tasks w ∧ r = Raised (KeyError task_id)
      end
  end.
Proof.
  unfold process_tts_task_start, try_before_await, except_block. simpl.
  destruct (dict_get task_id (tts_tasks w)) as [t|] eqn:Hget, mk as [msg|];
    simpl; rewrite ?Hget; simpl; repeat case_match; simplify_eq; simpl; eauto.
Qed.

Lemma resume_cases task_id loc res now rm w :
  match process_tts_task_resume task_id loc res now rm w with
  | (w', r) =>
      match dict_get task_id (tts_tasks w), res with
      | Some t, EngineReturn _ out =>
          tts_tasks w' = dict_set task_id (update_completed now out t) (tts_tasks w)
          ∧ r = Return tt
      | Some t, EngineRaise msg =>
          tts_tasks w' = dict_set task_id (update_failed now msg t) (tts_tasks w)
          ∧ ∃ e, r = Raise e
      | None, _ => tts_tasks w' = tts_tasks w ∧ r = Raise (KeyError task_id)
      end
  end.
Proof.
  unfold process_tts_task_resume, try_after_await, except_block. simpl.
  destruct (dict_get task_id (tts_tasks w)) as [t|] eqn:Hget, res as [m out|msg];
    simpl; rewrite ?Hget; simpl; repeat case_match; simplify_eq; simpl; eauto.
Qed.

Lemma delete_tasks task_id rm w :
  tts_tasks (delete_tts_task task_id rm w).1 = tts_tasks w
  ∨ tts_tasks (delete_tts_task task_id rm w).1 = dict_remove task_id (tts_tasks w).
Proof.
  unfold delete_tts_task, dict_del.
  destruct (dict_get task_id (tts_tasks w)) eqn:Hget; simpl; [|by left].
  repeat case_match; simpl in *; simplify_eq; auto.
Qed.

(** ** What one sweep iteration does *)

Lemma removed_nil w : removed [] w = w.
Proof.
  destruct w as [d f]. unfold removed. simpl. f_equal.
  - induction d as [|p d IH]; [done|].
    rewrite filter_cons_True; [by rewrite IH | apply not_elem_of_nil].
  - set_solver.
Qed.

Lemma removed_step a ids w f :
  f = fs w ∖ {[temp_dir_of a]} ∨ (f = fs w ∧ temp_dir_of a ∉ fs w) →
  removed ids {| tts_tasks := dict_remove a (tts_tasks w); fs := f |}
  = removed (a :: ids) w.
Proof.
  intros Hf. unfold removed. simpl. f_equal.
  - rewrite dict_remove_filter, list_filter_filter.
    apply list_filter_iff. intros [k v]. simpl. rewrite not_elem_of_cons. tauto.
  - destruct Hf as [->|[-> Hd]]; set_solver.
Qed.

Lemma removed_get ids w id :
  NoDup (dict_keys (tts_tasks w)) →
  dict_get id (tts_tasks (removed ids w)) =
    if decide (id ∈ ids) then None else dict_get id (tts_tasks w).
Proof.
  intros Hnd. unfold removed. simpl. case_decide as Hin.
  - apply dict_get_None_keys. unfold dict_keys.
    intros [[k v] [-> [Hk _]%list_elem_of_filter]]%list_elem_of_fmap. done.
  - destruct (dict_get id (tts_tasks w)) as [t|] eqn:Hget.
    + apply dict_elem_get; [by apply NoDup_keys_filter|].
      apply list_elem_of_filter. split; [done | by apply dict_get_Some_elem].
    + apply dict_get_None_keys. apply dict_get_None_keys in Hget.
      unfold dict_keys in *.
      intros [p [-> [_ Hp]%list_elem_of_filter]]%list_elem_of_fmap.
      apply Hget. apply list_elem_of_fmap. by exists p.
Qed.

Lemma removed_fs ids w p :
  p ∈ fs (removed ids w) ↔ p ∈ fs w ∧ ∀ id, id ∈ ids → p ≠ temp_dir_of id.
Proof.
  unfold removed. simpl. rewrite elem_of_difference, elem_of_list_to_set.
  rewrite list_elem_of_fmap. naive_solver.
Qed.

(** The second loop of the sweep: either every listed record goes, or the
    loop stops at the first [rmtree] that raises. *)
Lemma delete_loop_spec ids rm w :
  NoDup ids →
  (∀ id, id ∈ ids → is_Some (dict_get id (tts_tasks w))) →
  match delete_loop ids rm w with
  | (w', Return _) =>
      w' = removed ids w
      ∧ ∀ id, id ∈ ids → temp_dir_of id ∈ fs w → rm (temp_dir_of id) = None
  | (w', Raise e) =>
      ∃ pre k post msg,
        ids = (pre ++ k :: post)%list ∧ e = OSError msg
        ∧ temp_dir_of k ∈ fs w ∧ rm (temp_dir_of k) = Some msg
        ∧ w' = removed pre w
        ∧ ∀ id, id ∈ pre → temp_dir_of id ∈ fs w → rm (temp_dir_of id) = None
  end.
Proof.
  revert w. induction ids as [|a ids IH]; intros w Hnd Hin.
  - simpl. split; [by rewrite removed_nil | by intros ? ?%elem_of_nil].
  - apply NoDup_cons in Hnd as [Ha Hnd].
    assert (Hstep : ∀ f,
      f = fs w ∖ {[temp_dir_of a]} ∨ (f = fs w ∧ temp_dir_of a ∉ fs w) →
      (temp_dir_of a ∈ fs w → rm (temp_dir_of a) = None) →
      match delete_loop ids rm {| tts_tasks := dict_remove a (tts_tasks w); fs := f |} with
      | (w', Return _) =>
          w' = removed (a :: ids) w
          ∧ ∀ id, id ∈ a :: ids → temp_dir_of id ∈ fs w → rm (temp_dir_of id) = None
      | (w', Raise e) =>
          ∃ pre k post msg,
            a :: ids = (pre ++ k :: post)%list ∧ e = OSError msg
            ∧ temp_dir_of k ∈ fs w ∧ rm (temp_dir_of k) = Some msg
            ∧ w' = removed pre w
            ∧ ∀ id, id ∈ pre → temp_dir_of id ∈ fs w → rm (temp_dir_of id) = None
      end).
    { intros f Hf Hrm.
      assert (Hfs : ∀ id, id ∈ ids → temp_dir_of id ∈ fs w → temp_dir_of id ∈ f).
      { intros id Hid Hd. destruct Hf as [->|[-> _]]; [|done].
        apply elem_of_difference. split; [done|].
        intros ->%elem_of_singleton%temp_dir_of_inj. done. }
      assert (Hsub : f ⊆ fs w) by (destruct Hf as [->|[-> _]]; set_solver).
      specialize (IH {| tts_tasks := dict_remove a (tts_tasks w); fs := f |} Hnd).
      destruct (delete_loop ids rm _) as [w' [[]|e]].
      - destruct IH as [-> Hall].
        { intros id Hid. simpl. rewrite dict_get_remove_ne; [|by intros ->].
          apply Hin. by right. }
        split; [by apply removed_step|].
        intros id [->|Hid]%elem_of_cons Hd; [auto|]. apply Hall; auto.
      - destruct IH as (pre & k & post & msg & -> & -> & Hk & Hrmk & -> & Hall).
        { intros id Hid. simpl. rewrite dict_get_remove_ne; [|by intros ->].
          apply Hin. by right. }
        exists (a :: pre), k, post, msg. split_and!; try done.
        + by apply Hsub.
        + by apply removed_step.
        + intros id [->|Hid]%elem_of_cons Hd; [auto|].
          apply Hall; [done|]. apply Hfs; [|done].
          apply elem_of_app. by left. }
    destruct (Hin a) as [t Ht]; [by left|].
    cbn [delete_loop]. unfold dict_del. rewrite Ht.
    destruct (decide (temp_dir_of a ∈ fs w)) as [Hd|Hd].
    + destruct (rm (temp_dir_of a)) as [msg|] eqn:Hrm.
      * exists [], a, ids, msg. split_and!; try done.
        -- by rewrite removed_nil.
        -- by intros ? ?%elem_of_nil.
      * unfold with_tasks, with_fs. simpl. rewrite Ht. apply Hstep; auto.
    + unfold with_tasks. simpl. apply Hstep; [by right | done].
Qed.

Lemma tasks_to_delete_elem now (d : Dict Task) id :
  NoDup (dict_keys d) →
  id ∈ tasks_to_delete now d ↔ ∃ t, dict_get id d = Some t ∧ expired now t = true.
Proof.
  intros Hnd. unfold tasks_to_delete. rewrite list_elem_of_fmap. split.
  - intros [[k t] [-> [He Hin]%list_elem_of_filter]]. simpl in *.
    exists t. split; [by apply dict_elem_get | done].
  - intros [t [Hget He]]. exists (id, t). split; [done|].
    apply list_elem_of_filter. split; [done | by apply dict_get_Some_elem].
Qed.

Lemma tasks_to_delete_NoDup now (d : Dict Task) :
  NoDup (dict_keys d) → NoDup (tasks_to_delete now d).
Proof. apply NoDup_keys_filter. Qed.

Lemma tasks_to_delete_present now (d : Dict Task) id :
  NoDup (dict_keys d) → id ∈ tasks_to_delete now d → is_Some (dict_get id d).
Proof. intros Hnd [t [Ht _]]%tasks_to_delete_elem; eauto. Qed.

(** After a sweep iteration, completed or interrupted, the dictionary is the
    old one without some of its records. *)
Lemma cleanup_shrinks now rm w :
  NoDup (dict_keys (tts_tasks w)) →
  ∃ ids, (cleanup_old_tasks now rm w).1 = removed ids w.
Proof.
  intros Hnd. unfold cleanup_old_tasks.
  pose proof (delete_loop_spec (tasks_to_delete now (tts_tasks w)) rm w
    (tasks_to_delete_NoDup _ _ Hnd)
    (λ id, tasks_to_delete_present now _ id Hnd)) as H.
  destruct (delete_loop _ _ _) as [w' [[]|e]]; simpl.
  - destruct H as [-> _]. eauto.
  - destruct H as (pre & _ & _ & _ & _ & _ & _ & _ & -> & _). eauto.
Qed.

Lemma task_ok_set_processing t : task_ok Queued t → task_ok Running (set_processing t).
Proof. unfold task_ok. simpl. tauto. Qed.

Lemma task_ok_failed ph now msg t :
  ph ≠ Finished → task_ok ph t → task_ok Finished (update_failed now msg t).
Proof. destruct ph; [| |done]; intros _ (? & ? & ? & ?); right; simpl; eauto. Qed.

Lemma task_ok_completed now out t :
  task_ok Running t → task_ok Finished (update_completed now out t).
Proof. intros (? & ? & ? & ?); left; simpl; eauto. Qed.

Lemma Inv_step s ev s' o : Inv s → step s ev = Some (s', o) → Inv s'.
Proof.
  intros [Htask Hkeys Hapart Hit Hib Hia Hframe] Hstep.
  destruct ev as [id now req|id mk now rm|id res now rm|id|id|id rm|now rm];
    simpl in Hstep.
  - (* Submit *)
    case_decide as Hfresh; [done|]. simplify_eq.
    assert (dict_get id (background s) = None) as Hb.
    { destruct (dict_get id (background s)) eqn:E; [|done]. destruct Hfresh; eauto. }
    assert (dict_get id (awaiting s) = None) as Ha.
    { destruct (dict_get id (awaiting s)) eqn:E; [|done]. destruct Hfresh; eauto. }
    split; simpl.
    + intros id' t. unfold phase_of. simpl. rewrite !dict_get_set.
      case_decide; [intros; by simplify_eq|]. apply Htask.
    + by apply NoDup_keys_set.
    + intros id'. rewrite dict_get_set. case_decide; [by subst|]. apply Hapart.
    + intros id'. rewrite dict_get_set. case_decide; [set_solver|].
      intros ?%Hit. set_solver.
    + intros id'. rewrite dict_get_set. case_decide; [set_solver|].
      intros ?%Hib. set_solver.
    + intros id' ?%Hia. set_solver.
    + done.
  - (* WorkerStart *)
    destruct (dict_get id (background s)) as [req|] eqn:Hb; [|done].
    pose proof (start_cases id req mk now rm (world s)) as Hc.
    destruct (process_tts_task_start _ _ _ _ _ _) as [w' r]. simplify_eq.
    assert (dict_get id (awaiting s) = None) as Ha by (apply Hapart; eauto).
    assert (Hq : ∀ t, dict_get id (tts_tasks (world s)) = Some t → task_ok Queued t).
    { intros t Ht. specialize (Htask _ _ Ht). unfold phase_of in Htask.
      by rewrite Hb in Htask. }
    destruct (dict_get id (tts_tasks (world s))) as [t|] eqn:Ht.
    + destruct mk as [msg|].
      * destruct Hc as [Hw [e ->]].
        split; simpl; rewrite ?Hw.
        -- intros id' t'. unfold phase_of. simpl.
           rewrite dict_get_set, dict_get_remove. case_decide; subst.
           ++ intros; simplify_eq. rewrite Ha.
              apply (task_ok_failed Queued); [done | by apply Hq].
           ++ apply Htask.
        -- by apply NoDup_keys_set.
        -- intros id'. rewrite dict_get_remove. case_decide; [by intros []|]. apply Hapart.
        -- intros id'. rewrite dict_get_set. case_decide; subst; [intros _; apply Hib; eauto|]. apply Hit.
        -- intros id'. rewrite dict_get_remove. case_decide; [by intros []|]. apply Hib.
        -- done.
        -- done.
      * destruct Hc as [Hw [loc [-> Hloc]]].
        split; simpl; rewrite ?Hw.
        -- intros id' t'. unfold phase_of. simpl.
           rewrite !dict_get_set, dict_get_remove. case_decide; subst.
           ++ intros; simplify_eq. apply task_ok_set_processing. by apply Hq.
           ++ apply Htask.
        -- by apply NoDup_keys_set.
        -- intros id'. rewrite dict_get_remove, dict_get_set.
           case_decide; [by intros []|]. apply Hapart.
        -- intros id'. rewrite dict_get_set. case_decide; subst; [intros _; apply Hib; eauto|]. apply Hit.
        -- intros id'. rewrite dict_get_remove. case_decide; [by intros []|]. apply Hib.
        -- intros id'. rewrite dict_get_set. case_decide; subst; [intros _; apply Hib; eauto|]. apply Hia.
        -- intros id' loc'. rewrite dict_get_set. case_decide; subst; [by intros; simplify_eq|]. apply Hframe.
    + destruct Hc as [Hw ->].
      split; simpl; rewrite ?Hw.
      * intros id' t'. unfold phase_of. simpl. rewrite dict_get_remove.
        case_decide; subst; [by rewrite Ht|]. apply Htask.
      * done.
      * intros id'. rewrite dict_get_remove. case_decide; [by intros []|]. apply Hapart.
      * done.
      * intros id'. rewrite dict_get_remove. case_decide; [by intros []|]. apply Hib.
      * done.
      * done.
  - (* WorkerResume *)
    destruct (dict_get id (awaiting s)) as [loc|] eqn:Ha; [|done].
    pose proof (resume_cases id loc res now rm (world s)) as Hc.
    destruct (process_tts_task_resume _ _ _ _ _ _) as [w' r]. simplify_eq.
    assert (dict_get id (background s) = None) as Hb.
    { destruct (dict_get id (background s)) eqn:E; [|done].
      rewrite Hapart in Ha; [done | eauto]. }
    assert (Hq : ∀ t, dict_get id (tts_tasks (world s)) = Some t → task_ok Running t).
    { intros t Ht. specialize (Htask _ _ Ht). unfold phase_of in Htask.
      by rewrite Hb, Ha in Htask. }
    assert (Hrest : ∀ more, Inv {| world := more; background := background s;
        awaiting := dict_remove id (awaiting s); issued := issued s;
        sweeper := sweeper s |} ↔
      (∀ id' t', dict_get id' (tts_tasks more) = Some t' →
         if decide (id = id') then task_ok Finished t' else task_ok (phase_of s id') t')
      ∧ NoDup (dict_keys (tts_tasks more))
      ∧ ∀ id', is_Some (dict_get id' (tts_tasks more)) → id' ∈ issued s).
    { intros more. split.
      - intros [H1 H2 _ H4 _ _ _]. simpl in *. split_and!; [|done|done].
        intros id' t' Hg. specialize (H1 _ _ Hg). unfold phase_of in *. simpl in H1.
        rewrite dict_get_remove in H1. case_decide; subst; [by rewrite Hb in H1|done].
      - intros (H1 & H2 & H3). split; simpl; try done.
        + intros id' t' Hg. specialize (H1 _ _ Hg). unfold phase_of in *. simpl.
          rewrite dict_get_remove. case_decide; subst; [by rewrite Hb|done].
        + intros id' Hs. rewrite dict_get_remove. case_decide; [done|]. by apply Hapart.
        + intros id'. rewrite dict_get_remove. case_decide; [by intros []|]. apply Hia.
        + intros id' loc'. rewrite dict_get_remove. case_decide; [done|]. apply Hframe. }
    apply Hrest.
    destruct (dict_get id (tts_tasks (world s))) as [t|] eqn:Ht.
    + assert (∀ t1, task_ok Finished t1 →
        tts_tasks w' = dict_set id t1 (tts_tasks (world s)) →
        (∀ id' t', dict_get id' (tts_tasks w') = Some t' →
           if decide (id = id') then task_ok Finished t' else task_ok (phase_of s id') t')
        ∧ NoDup (dict_keys (tts_tasks w'))
        ∧ ∀ id', is_Some (dict_get id' (tts_tasks w')) → id' ∈ issued s) as Hupd.
      { intros t1 Hok ->. split_and!.
        - intros id' t'. rewrite dict_get_set. case_decide; [by intros; simplify_eq|].
          apply Htask.
        - by apply NoDup_keys_set.
        - intros id'. rewrite dict_get_set. case_decide; subst; [intros _; apply Hia; eauto|].
          apply Hit. }
      destruct res as [m out|msg].
      * destruct Hc as [Hw _]. eapply Hupd; [|done]. apply task_ok_completed. by apply Hq.
      * destruct Hc as [Hw _]. eapply Hupd; [|done].
        apply (task_ok_failed Running); [done | by apply Hq].
    + destruct Hc as [-> _]. split_and!; [|done|done].
      intros id' t' Hg. case_decide; subst; [congruence|]. by apply Htask.
  - by simplify_eq.
  - by simplify_eq.
  - (* DeleteTask *)
    pose proof (delete_tasks id rm (world s)) as Hd.
    destruct (delete_tts_task _ _ _) as [w' r]. simplify_eq. simpl in Hd.
    destruct Hd as [Hw|Hw]; split; simpl; rewrite ?Hw; try done.
    + intros id' t'. rewrite dict_get_remove. case_decide; [done|]. apply Htask.
    + by apply NoDup_keys_remove.
    + intros id'. rewrite dict_get_remove. case_decide; [by intros []|]. apply Hit.
  - (* SweepTick *)
    destruct (sweeper s); [|done].
    destruct (cleanup_shrinks now rm (world s) Hkeys) as [ids Hw].
    destruct (cleanup_old_tasks _ _ _) as [w' r]. simplify_eq. simpl in Hw. subst w'.
    split; cbn [world background awaiting issued sweeper]; try done.
    + intros id' t'. rewrite removed_get by done. case_decide; [done|]. apply Htask.
    + by apply NoDup_keys_filter.
    + intros id'. rewrite removed_get by done. case_decide; [by intros []|]. apply Hit.
Qed.

Lemma reachable_Inv s : reachable s → Inv s.
Proof.
  induction 1 as [disk|s ev s' o _ IH Hstep];
    [apply Inv_initial | by eapply Inv_step].
Qed.


(** C8. [get_tts_result] answers 404 "Task not found" for an id that is not
    in [tts_tasks], and for a record whose status is not ["completed"] it
    answers 400 with a detail that ends in the record's current status; in
    both cases it raises and returns no file. *)
Theorem get_tts_result_not_ready (task_id : string) (w : World) :
  (dict_get task_id (tts_tasks w) = None →
   get_tts_result task_id w = Raise (HTTPException 404 "Task not found"))
  ∧ (∀ task, dict_get task_id (tts_tasks w) = Some task →
       status task ≠ "completed" →
       get_tts_result task_id w =
         Raise (HTTPException 400
                  ("Task is not completed. Current status: " +:+ status task))).
Proof.
  unfold get_tts_result. split.
  - by intros ->.
  - intros task -> Hs. destruct (String.eqb_spec (status task) "completed"); done.
Qed.

(** The two cases of C8 on a store with one pending task. *)
Lemma get_tts_result_not_ready_witness :
  get_tts_result "t0" (world_of [("t1", pending_task 0)] []) =
    Raise (HTTPException 404 "Task not found")
  ∧ get_tts_result "t1" (world_of [("t1", pending_task 0)] []) =
    Raise (HTTPException 400 "Task is not completed. Current status: pending").
Proof.
  split.
  - apply (proj1 (get_tts_result_not_ready "t0" (world_of [("t1", pending_task 0)] []))).
    reflexivity.
  - apply (proj2 (get_tts_result_not_ready "t1" (world_of [("t1", pending_task 0)] []))
             (pending_task 0)); [reflexivity | discriminate].
Defined.

(** C7, counterexample. A completed record with the path
    ["temp_tts_t1/rvc_output.wav"] and a disk on which nothing can be opened:
    the handler returns the file response for the path, not the 404. *)
Lemma missing_artifact_not_checked : ¬ missing_artifact_reported.
Proof.
  intros H.
  specialize (H (λ _, false) "t1"
    (world_of [("t1", completed_task "temp_tts_t1/rvc_output.wav")] [])
    (completed_task "temp_tts_t1/rvc_output.wav") "temp_tts_t1/rvc_output.wav"
    eq_refl eq_refl eq_refl eq_refl).
  vm_compute in H. discriminate H.
Qed.

(** C7, amended. For a record whose status is ["completed"],
    [get_tts_result] answers 404 "Output file not found" when the
    ["output_file"] entry is absent or the empty string; for any other path
    it returns the file response for that path, and the file system is not
    consulted. *)
Theorem get_tts_result_completed (task_id : string) (w : World) (task : Task) :
  dict_get task_id (tts_tasks w) = Some task →
  status task = "completed" →
  (truthy (output_file task) = false →
   get_tts_result task_id w = Raise (HTTPException 404 "Output file not found"))
  ∧ (∀ p, output_file task = Some p → p ≠ "" →
       get_tts_result task_id w = Return p).
Proof.
  intros Hget Hs. unfold get_tts_result. rewrite Hget, Hs. simpl. split.
  - destruct (output_file task) as [p|]; simpl; [|done].
    destruct (String.eqb p ""); [done | discriminate].
  - intros p -> Hp. by destruct (String.eqb_spec p "").
Qed.

(** The two cases of the amended C7 on concrete completed records. *)
Lemma get_tts_result_completed_witness :
  get_tts_result "t1" (world_of [("t1", completed_task "")] []) =
    Raise (HTTPException 404 "Output file not found")
  ∧ get_tts_result "t1" (world_of [("t1", completed_task "out.wav")] []) = Return "out.wav".
Proof.
  split.
  - apply (proj1 (get_tts_result_completed "t1" (world_of [("t1", completed_task "")] [])
                    (completed_task "") eq_refl eq_refl)).
    reflexivity.
  - apply (proj2 (get_tts_result_completed "t1" (world_of [("t1", completed_task "out.wav")] [])
                    (completed_task "out.wav") eq_refl eq_refl));
      [reflexivity | discriminate].
Defined.


Lemma cleanup_spec now rm w :
  NoDup (dict_keys (tts_tasks w)) →
  match cleanup_old_tasks now rm w with
  | (w', Return _) =>
      w' = removed (tasks_to_delete now (tts_tasks w)) w
      ∧ ∀ id, id ∈ tasks_to_delete now (tts_tasks w) →
          temp_dir_of id ∈ fs w → rm (temp_dir_of id) = None
  | (w', Raise e) =>
      ∃ pre k post msg,
        tasks_to_delete now (tts_tasks w) = (pre ++ k :: post)%list
        ∧ e = OSError msg
        ∧ temp_dir_of k ∈ fs w ∧ rm (temp_dir_of k) = Some msg
        ∧ w' = removed pre w
        ∧ ∀ id, id ∈ pre → temp_dir_of id ∈ fs w → rm (temp_dir_of id) = None
  end.
Proof.
  intros Hnd. unfold cleanup_old_tasks. apply delete_loop_spec.
  - by apply tasks_to_delete_NoDup.
  - intros id. by apply tasks_to_delete_present.
Qed.

(** C5, counterexample. A task created exactly 24 hours before the tick is
    deleted although its age does not exceed the window. *)
Lemma sweep_boundary_deleted : ¬ sweep_deletes_older_only.
Proof.
  intros H.
  specialize (H (24 * hour) rmtree_ok (world_of [("t1", pending_task 0)] [])
                (world_of [] [])).
  destruct (H (NoDup_singleton _) eq_refl "t1" (pending_task 0) eq_refl) as [H1 _].
  specialize (H1 eq_refl). vm_compute in H1. discriminate H1.
Qed.

(** C5, amended. A sweep iteration that returns deletes exactly the records
    whose age is at least 24 hours ([(now - created_at).days >= 1]), record
    and working directory, leaves every record younger than 24 hours and
    its directory as they are, and adds no record; with three tasks created
    25, 23 and 1 hours ago it deletes the first and keeps the other two. *)
Theorem sweep_deletes_expired :
  (∀ now rm w w',
     NoDup (dict_keys (tts_tasks w)) →
     cleanup_old_tasks now rm w = (w', Return tt) →
     (∀ id t, dict_get id (tts_tasks w) = Some t →
        microseconds_per_day ≤ now - created_at t →
        dict_get id (tts_tasks w') = None ∧ temp_dir_of id ∉ fs w')
     ∧ (∀ id t, dict_get id (tts_tasks w) = Some t →
          now - created_at t < microseconds_per_day →
          dict_get id (tts_tasks w') = Some t
          ∧ (temp_dir_of id ∈ fs w' ↔ temp_dir_of id ∈ fs w))
     ∧ (∀ id, dict_get id (tts_tasks w) = None → dict_get id (tts_tasks w') = None))
  ∧ (∀ now,
       cleanup_old_tasks now rmtree_ok (three_tasks now) =
         (world_of [("t23", pending_task (now - 23 * hour));
                    ("t1", pending_task (now - 1 * hour))]
                   ["temp_tts_t23"; "temp_tts_t1"], Return tt)).
Proof.
  split.
  - intros now rm w w' Hnd Hrun.
    pose proof (cleanup_spec now rm w Hnd) as Hspec. rewrite Hrun in Hspec.
    destruct Hspec as [-> _].
    split_and!.
    + intros id t Hget Hage.
      assert (id ∈ tasks_to_delete now (tts_tasks w)) as Hin.
      { apply tasks_to_delete_elem; [done|]. exists t. by rewrite expired_spec. }
      split.
      * rewrite removed_get by done. by rewrite decide_True.
      * rewrite removed_fs. intros [_ Hne]. by apply (Hne id).
    + intros id t Hget Hage.
      assert (id ∉ tasks_to_delete now (tts_tasks w)) as Hin.
      { rewrite tasks_to_delete_elem by done. intros [t' [Ht' He]].
        apply expired_spec in He. simplify_eq. lia. }
      split.
      * rewrite removed_get by done. by rewrite decide_False.
      * rewrite removed_fs. split; [tauto|]. intros Hd. split; [done|].
        intros id' Hid' ->%temp_dir_of_inj. done.
    + intros id Hget. rewrite removed_get by done. by case_decide.
  - intros now. unfold cleanup_old_tasks, tasks_to_delete, three_tasks, world_of.
    cbn [tts_tasks].
    assert (expired now (pending_task (now - 25 * hour)) = true) as H25.
    { apply expired_spec. unfold microseconds_per_day, hour. simpl. lia. }
    assert (expired now (pending_task (now - 23 * hour)) ≠ true) as H23.
    { rewrite expired_spec. unfold microseconds_per_day, hour. simpl. lia. }
    assert (expired now (pending_task (now - 1 * hour)) ≠ true) as H1.
    { rewrite expired_spec. unfold microseconds_per_day, hour. simpl. lia. }
    rewrite filter_cons_True by done.
    rewrite filter_cons_False by done.
    rewrite filter_cons_False by done.
    clear. generalize (pending_task (now - 25 * hour)),
      (pending_task (now - 23 * hour)), (pending_task (now - 1 * hour)).
    intros a b c. vm_compute. reflexivity.
Qed.

(** The amended C5 on the three-task scenario, for the 25-hour-old task. *)
Lemma sweep_deletes_expired_witness :
  dict_get "t25" (tts_tasks (world_of [("t23", pending_task (2 * hour));
                                      ("t1", pending_task (24 * hour))]
                                     ["temp_tts_t23"; "temp_tts_t1"])) = None
  ∧ temp_dir_of "t25" ∉ fs (world_of [("t23", pending_task (2 * hour));
                                      ("t1", pending_task (24 * hour))]
                                     ["temp_tts_t23"; "temp_tts_t1"]).
Proof.
  refine (proj1 (proj1 sweep_deletes_expired (25 * hour) rmtree_ok
                   (three_tasks (25 * hour))
                   (world_of [("t23", pending_task (2 * hour));
                              ("t1", pending_task (24 * hour))]
                             ["temp_tts_t23"; "temp_tts_t1"])
                   _ _)
            "t25" (pending_task 0) _ _).
  - compute_done.
  - vm_compute. reflexivity.
  - vm_compute. reflexivity.
  - vm_compute. discriminate.
Defined.

(** C6, counterexample. Two expired tasks, [rmtree] raising on the
    directory of the first: the iteration raises [OSError] and the second
    task is still there. *)
Lemma sweep_raises_and_stops :
  cleanup_old_tasks (48 * hour) rmtree_fails_a two_expired =
    (two_expired, Raise (OSError "Permission denied"))
  ∧ ¬ sweep_never_raises.
Proof.
  split; [vm_compute; reflexivity|].
  intros H.
  destruct (H (48 * hour) rmtree_fails_a two_expired) as [w' [Hrun _]].
  - compute_done.
  - assert (cleanup_old_tasks (48 * hour) rmtree_fails_a two_expired =
              (two_expired, Raise (OSError "Permission denied"))) as Heq
      by (vm_compute; reflexivity).
    rewrite Heq in Hrun. discriminate Hrun.
Qed.

Lemma delete_loop_fails pre k post rm w msg :
  NoDup (pre ++ k :: post) →
  (∀ id, id ∈ pre → is_Some (dict_get id (tts_tasks w))) →
  (∀ id, id ∈ pre → temp_dir_of id ∈ fs w → rm (temp_dir_of id) = None) →
  temp_dir_of k ∈ fs w →
  rm (temp_dir_of k) = Some msg →
  delete_loop (pre ++ k :: post) rm w = (removed pre w, Raise (OSError msg)).
Proof.
  revert w. induction pre as [|a pre IH]; intros w Hnd Hin Hok Hk Hrm.
  - cbn [app delete_loop]. rewrite decide_True by done. rewrite Hrm.
    by rewrite removed_nil.
  - cbn [app] in Hnd. apply NoDup_cons in Hnd as [Ha Hnd].
    assert (a ≠ k) as Hak.
    { intros ->. apply Ha. apply elem_of_app. right. by left. }
    assert (Hstep : ∀ f,
      f = fs w ∖ {[temp_dir_of a]} ∨ (f = fs w ∧ temp_dir_of a ∉ fs w) →
      delete_loop (pre ++ k :: post) rm
        {| tts_tasks := dict_remove a (tts_tasks w); fs := f |}
      = (removed (a :: pre) w, Raise (OSError msg))).
    { intros f Hf.
      assert (Hfs : ∀ id, id ≠ a → temp_dir_of id ∈ fs w → temp_dir_of id ∈ f).
      { intros id Hne Hd. destruct Hf as [->|[-> _]]; [|done].
        apply elem_of_difference. split; [done|].
        by intros ->%elem_of_singleton%temp_dir_of_inj. }
      assert (Hsub : f ⊆ fs w) by (destruct Hf as [->|[-> _]]; set_solver).
      rewrite <- (removed_step a pre w f Hf). apply IH; cbn [tts_tasks fs].
      - done.
      - intros id Hid. rewrite dict_get_remove_ne.
        + apply Hin. by right.
        + intros ->. apply Ha. apply elem_of_app. by left.
      - intros id Hid Hd. apply Hok; [by right | by apply Hsub].
      - apply Hfs; [by intros -> | done].
      - done. }
    destruct (Hin a) as [t Ht]; [by left|].
    cbn [app delete_loop]. unfold dict_del.
    destruct (decide (temp_dir_of a ∈ fs w)) as [Hd|Hd].
    + rewrite (Hok a) by (done || by left).
      unfold with_tasks, with_fs. cbn [tts_tasks fs]. rewrite Ht.
      apply Hstep. by left.
    + rewrite Ht. unfold with_tasks. apply Hstep. by right.
Qed.

(** C6, amended. A sweep iteration in which no [rmtree] raises returns and
    deletes every expired record.  As soon as the [rmtree] of one expired
    record's existing working directory raises, the iteration raises to its
    caller: with the expired records in dictionary order and the first
    failing one at position k, the result is that [OSError]; the records
    before k and their directories are gone, the record at k, its directory
    and every expired record after k are still there.  Conversely a raising
    iteration always has this shape. *)
Theorem sweep_stops_at_first_failure now rm w :
  NoDup (dict_keys (tts_tasks w)) →
  ((∀ id, id ∈ tasks_to_delete now (tts_tasks w) →
      temp_dir_of id ∈ fs w → rm (temp_dir_of id) = None) →
   ∃ w', cleanup_old_tasks now rm w = (w', Return tt)
         ∧ ∀ id, id ∈ tasks_to_delete now (tts_tasks w) →
             dict_get id (tts_tasks w') = None)
  ∧ (∀ id msg, id ∈ tasks_to_delete now (tts_tasks w) →
       temp_dir_of id ∈ fs w → rm (temp_dir_of id) = Some msg →
       ∃ w' e, cleanup_old_tasks now rm w = (w', Raise e))
  ∧ (∀ pre k post msg,
       tasks_to_delete now (tts_tasks w) = (pre ++ k :: post)%list →
       (∀ id, id ∈ pre → temp_dir_of id ∈ fs w → rm (temp_dir_of id) = None) →
       temp_dir_of k ∈ fs w →
       rm (temp_dir_of k) = Some msg →
       ∃ w', cleanup_old_tasks now rm w = (w', Raise (OSError msg))
             ∧ (∀ id, id ∈ pre →
                  dict_get id (tts_tasks w') = None ∧ temp_dir_of id ∉ fs w')
             ∧ temp_dir_of k ∈ fs w'
             ∧ (∀ id, id ∈ k :: post →
                  dict_get id (tts_tasks w') = dict_get id (tts_tasks w)
                  ∧ is_Some (dict_get id (tts_tasks w))))
  ∧ (∀ w' e, cleanup_old_tasks now rm w = (w', Raise e) →
       ∃ pre k post msg,
         tasks_to_delete now (tts_tasks w) = (pre ++ k :: post)%list
         ∧ e = OSError msg
         ∧ temp_dir_of k ∈ fs w ∧ rm (temp_dir_of k) = Some msg
         ∧ (∀ id, id ∈ pre → dict_get id (tts_tasks w') = None)
         ∧ (∀ id, id ∈ k :: post →
              dict_get id (tts_tasks w') = dict_get id (tts_tasks w)
              ∧ is_Some (dict_get id (tts_tasks w)))).
Proof.
  intros Hnd. pose proof (cleanup_spec now rm w Hnd) as Hspec.
  pose proof (tasks_to_delete_NoDup now _ Hnd) as Hids.
  split_and!.
  - intros Hok. destruct (cleanup_old_tasks now rm w) as [w' [[]|e]].
    + destruct Hspec as [-> _]. eexists. split; [done|].
      intros id Hid. rewrite removed_get by done. by rewrite decide_True.
    + destruct Hspec as (pre & k & post & msg & Heq & _ & Hk & Hrm & _).
      rewrite Hok in Hrm; [done| |done].
      rewrite Heq. apply elem_of_app. right. by left.
  - intros id msg Hid Hd Hrm.
    destruct (cleanup_old_tasks now rm w) as [w' [[]|e]]; [|eauto].
    destruct Hspec as [_ Hall]. rewrite (Hall id Hid Hd) in Hrm. done.
  - intros pre k post msg Heq Hok Hk Hrm.
    exists (removed pre w). rewrite Heq in Hids.
    pose proof Hids as (_ & Hdisj & _)%NoDup_app.
    split_and!.
    + unfold cleanup_old_tasks. rewrite Heq.
      apply delete_loop_fails; try done.
      intros id Hid. apply (tasks_to_delete_present now); [done|].
      rewrite Heq. apply elem_of_app. by left.
    + intros id Hid. split.
      * rewrite removed_get by done. by rewrite decide_True.
      * rewrite removed_fs. intros [_ Hne]. by apply (Hne id).
    + apply removed_fs. split; [done|].
      intros id Hid ->%temp_dir_of_inj. apply (Hdisj id); [done | by left].
    + intros id Hid. split.
      * rewrite removed_get by done. rewrite decide_False; [done|].
        intros Hpre. by apply (Hdisj id).
      * apply (tasks_to_delete_present now); [done|].
        rewrite Heq. apply elem_of_app. by right.
  - intros w' e Hrun. rewrite Hrun in Hspec.
    destruct Hspec as (pre & k & post & msg & Heq & -> & Hk & Hrm & -> & _).
    exists pre, k, post, msg. split_and!; try done.
    + intros id Hid. rewrite removed_get by done. by rewrite decide_True.
    + intros id Hid. rewrite Heq in Hids.
      apply NoDup_app in Hids as (_ & Hdisj & _).
      split.
      * rewrite removed_get by done. rewrite decide_False; [done|].
        intros Hpre. by apply (Hdisj id).
      * apply (tasks_to_delete_present now); [done|].
        rewrite Heq. apply elem_of_app. by right.
Qed.

(** The amended C6 on the two expired tasks: [rmtree] raises on the first,
    the iteration raises and both records stay. *)
Lemma sweep_stops_at_first_failure_witness :
  ∃ w', cleanup_old_tasks (48 * hour) rmtree_fails_a two_expired =
          (w', Raise (OSError "Permission denied"))
        ∧ (∀ id, id ∈ @nil string →
             dict_get id (tts_tasks w') = None ∧ temp_dir_of id ∉ fs w')
        ∧ temp_dir_of "a" ∈ fs w'
        ∧ (∀ id, id ∈ ["a"; "b"] →
             dict_get id (tts_tasks w') = dict_get id (tts_tasks two_expired)
             ∧ is_Some (dict_get id (tts_tasks two_expired))).
Proof.
  refine (proj1 (proj2 (proj2
            (sweep_stops_at_first_failure (48 * hour) rmtree_fails_a two_expired _)))
            [] "a" ["b"] "Permission denied" _ _ _ _).
  - compute_done.
  - vm_compute. reflexivity.
  - intros id Hid. by apply elem_of_nil in Hid.
  - vm_compute. reflexivity.
  - vm_compute. reflexivity.
Defined.

(** C9. A second sweep iteration at the same clock reading, right after one
    that returned, changes neither the dictionary nor the directories and
    returns, whatever [rmtree] would do.  (In the source the loop only
    reaches a second iteration when the first one returned.) *)
Theorem sweep_idempotent now rm rm' w w1 :
  NoDup (dict_keys (tts_tasks w)) →
  cleanup_old_tasks now rm w = (w1, Return tt) →
  cleanup_old_tasks now rm' w1 = (w1, Return tt).
Proof.
  intros Hnd Hrun.
  pose proof (cleanup_spec now rm w Hnd) as Hspec. rewrite Hrun in Hspec.
  destruct Hspec as [-> _].
  unfold cleanup_old_tasks.
  assert (tasks_to_delete now (tts_tasks (removed (tasks_to_delete now (tts_tasks w)) w)) = [])
    as ->; [|done].
  destruct (tasks_to_delete now (tts_tasks (removed _ w))) as [|id ids] eqn:E; [done|].
  assert (id ∈ tasks_to_delete now (tts_tasks (removed (tasks_to_delete now (tts_tasks w)) w)))
    as Hin by (rewrite E; by left).
  apply tasks_to_delete_elem in Hin as [t [Hget He]]; [|by apply NoDup_keys_filter].
  rewrite removed_get in Hget by done. case_decide as Hid; [done|].
  destruct Hid. apply tasks_to_delete_elem; eauto.
Qed.

(** C9 on the three-task scenario. *)
Lemma sweep_idempotent_witness :
  cleanup_old_tasks (25 * hour) rmtree_fails_a
    (world_of [("t23", pending_task (2 * hour)); ("t1", pending_task (24 * hour))]
              ["temp_tts_t23"; "temp_tts_t1"])
  = (world_of [("t23", pending_task (2 * hour)); ("t1", pending_task (24 * hour))]
              ["temp_tts_t23"; "temp_tts_t1"], Return tt).
Proof.
  apply (sweep_idempotent (25 * hour) rmtree_ok rmtree_fails_a (three_tasks (25 * hour))).
  - compute_done.
  - vm_compute. reflexivity.
Defined.

(** A later tick is another matter: an hour on, the 23-hour-old task of the
    scenario has aged past the window. *)
Lemma sweep_later_tick_deletes_more :
  ∃ w1, cleanup_old_tasks (25 * hour) rmtree_ok (three_tasks (25 * hour)) = (w1, Return tt)
        ∧ dict_get "t23" (tts_tasks w1) = Some (pending_task (2 * hour))
        ∧ dict_get "t23" (tts_tasks (cleanup_old_tasks (26 * hour) rmtree_ok w1).1) = None.
Proof.
  exists (world_of [("t23", pending_task (2 * hour)); ("t1", pending_task (24 * hour))]
            ["temp_tts_t23"; "temp_tts_t1"]).
  split_and!; vm_compute; reflexivity.
Qed.


Lemma run_reachable s evs s' : reachable s → run s evs = Some s' → reachable s'.
Proof.
  revert s. induction evs as [|ev evs IH]; intros s Hs Hrun; simpl in Hrun.
  - by simplify_eq.
  - destruct (step s ev) as [[s1 o]|] eqn:Hstep; [|done].
    eapply IH; [|done]. by eapply reachable_step.
Qed.

Lemma state_after_reachable evs :
  is_Some (run (initial ∅) evs) → reachable (state_after evs).
Proof.
  intros [s Hs]. unfold state_after. rewrite Hs. simpl.
  eapply run_reachable; [apply reachable_initial | done].
Qed.

(** C1, counterexample. When the engine raises an exception whose [str] is
    empty, the record is ["failed"] and its ["error"] entry is the empty
    string. *)
Lemma failed_with_empty_error :
  dict_get "t1" (tts_tasks (world (state_after silent_failure))) =
    Some {| status := "failed"; created_at := 0; request := demo_request;
            completed_at := Some 2; output_file := None; error := Some "" |}
  ∧ ¬ fields_nonempty_match_status.
Proof.
  assert (dict_get "t1" (tts_tasks (world (state_after silent_failure))) =
    Some {| status := "failed"; created_at := 0; request := demo_request;
            completed_at := Some 2; output_file := None; error := Some "" |})
    as Hget by (vm_compute; reflexivity).
  split; [done|].
  intros H.
  assert (reachable (state_after silent_failure)) as Hr
    by (apply state_after_reachable; vm_compute; eauto).
  destruct (H _ Hr _ _ Hget) as (_ & [_ He] & _).
  specialize (He eq_refl). vm_compute in He. discriminate He.
Qed.

(** C1, amended. In every reachable state and for every record, the
    ["output_file"] entry is present (possibly as an empty string) if and
    only if the status is ["completed"], the ["error"] entry is present
    (possibly as an empty string) if and only if the status is ["failed"],
    and the two entries are never both present. *)
Theorem fields_match_status s id t :
  reachable s →
  dict_get id (tts_tasks (world s)) = Some t →
  (is_Some (output_file t) ↔ status t = "completed")
  ∧ (is_Some (error t) ↔ status t = "failed")
  ∧ ¬ (is_Some (output_file t) ∧ is_Some (error t)).
Proof.
  intros Hs Hget. apply reachable_Inv in Hs. pose proof (inv_task _ Hs _ _ Hget) as Hok.
  destruct (phase_of s id); simpl in Hok.
  - destruct Hok as (-> & _ & -> & ->).
    split_and!; [split| split|]; (done || by intros [? ?] || by intros [[? ?] _]).
  - destruct Hok as (-> & _ & -> & ->).
    split_and!; [split| split|]; (done || by intros [? ?] || by intros [[? ?] _]).
  - destruct Hok as [(-> & _ & Ho & ->)|(-> & _ & -> & He)].
    + split_and!; [done | split; [by intros [? ?] | done] | by intros [_ [? ?]]].
    + split_and!; [split; [by intros [? ?] | done] | done | by intros [[? ?] _]].
Qed.

(** The amended C1 on the record of a task that ran to completion. *)
Lemma fields_match_status_witness :
  (is_Some (Some "temp_tts_t1/rvc_output.wav") ↔ "completed" = "completed")
  ∧ (is_Some (@None string) ↔ "completed" = "failed")
  ∧ ¬ (is_Some (Some "temp_tts_t1/rvc_output.wav") ∧ is_Some (@None string)).
Proof.
  apply (fields_match_status (state_after successful_run) "t1"
           {| status := "completed"; created_at := 0; request := demo_request;
              completed_at := Some 2;
              output_file := Some "temp_tts_t1/rvc_output.wav"; error := None |}).
  - apply state_after_reachable. vm_compute. eauto.
  - vm_compute. reflexivity.
Defined.


(** C2, counterexample. When [os.makedirs] raises, the record goes from
    ["pending"] to ["failed"] without passing through ["processing"]. *)
Lemma pending_to_failed :
  (∃ t t', dict_get "t1" (tts_tasks (world (state_after submitted))) = Some t
     ∧ dict_get "t1" (tts_tasks (world (state_after (submitted ++ [makedirs_fails])))) = Some t'
     ∧ status t = "pending" ∧ status t' = "failed")
  ∧ ¬ status_follows_spec_machine.
Proof.
  split.
  { exists {| status := "pending"; created_at := 0; request := demo_request;
              completed_at := None; output_file := None; error := None |},
           {| status := "failed"; created_at := 0; request := demo_request;
              completed_at := Some 1; output_file := None;
              error := Some "[Errno 13] Permission denied: 'temp_tts_t1'" |}.
    split_and!; vm_compute; reflexivity. }
  intros H.
  pose proof (H (state_after submitted) makedirs_fails
                (state_after (submitted ++ [makedirs_fails]))
                (WorkerStarted
                   (Raised (OSError "[Errno 13] Permission denied: 'temp_tts_t1'"))))
    as H1.
  clear H.
  assert (reachable (state_after submitted)) as Hr
    by (apply state_after_reachable; vm_compute; eauto).
  assert (step (state_after submitted) makedirs_fails =
            Some (state_after (submitted ++ [makedirs_fails]),
                  WorkerStarted
                    (Raised (OSError "[Errno 13] Permission denied: 'temp_tts_t1'"))))
    as Hst by (vm_compute; reflexivity).
  destruct (H1 Hr Hst) as [_ H2]. clear H1.
  assert (dict_get "t1" (tts_tasks (world (state_after submitted))) =
            Some {| status := "pending"; created_at := 0; request := demo_request;
                    completed_at := None; output_file := None; error := None |})
    as Hg by (vm_compute; reflexivity).
  assert (dict_get "t1"
            (tts_tasks (world (state_after (submitted ++ [makedirs_fails])))) =
            Some {| status := "failed"; created_at := 0; request := demo_request;
                    completed_at := Some 1; output_file := None;
                    error := Some "[Errno 13] Permission denied: 'temp_tts_t1'" |})
    as Hg' by (vm_compute; reflexivity).
  destruct (H2 "t1" _ _ Hg Hg') as [Heq|[[Ha Hb]|[[Ha Hb]|[Ha Hb]]]];
    simpl in *; discriminate.
Qed.

Lemma code_transition_not_terminal a b :
  code_transition a b → a ≠ "completed" ∧ a ≠ "failed".
Proof. intros [[[-> _]|[[-> _]|[-> _]]]|[-> _]]; done. Qed.

(** C2, amended. A record is created with status ["pending"], by a
    submission only.  One step leaves the status of a record as it is or
    moves it along pending -> processing, processing -> completed,
    processing -> failed or pending -> failed; the last one happens only
    when the worker fails to create its working directory.  A status that
    is ["completed"] or ["failed"] never changes. *)
Theorem status_transitions s ev s' o :
  reachable s → step s ev = Some (s', o) →
  (∀ id t', dict_get id (tts_tasks (world s)) = None →
     dict_get id (tts_tasks (world s')) = Some t' →
     status t' = "pending" ∧ ∃ now req, ev = Submit id now req)
  ∧ (∀ id t t', dict_get id (tts_tasks (world s)) = Some t →
       dict_get id (tts_tasks (world s')) = Some t' →
       (status t' = status t ∨ code_transition (status t) (status t'))
       ∧ (status t = "completed" ∨ status t = "failed" → status t' = status t)
       ∧ (status t = "pending" → status t' = "failed" →
            ∃ msg now rm, ev = WorkerStart id (Some msg) now rm)).
Proof.
  intros Hs Hstep. apply reachable_Inv in Hs.
  destruct Hs as [Htask Hkeys Hapart Hit Hib Hia Hframe].
  assert (Hsame : tts_tasks (world s') = tts_tasks (world s) →
    (∀ id t', dict_get id (tts_tasks (world s)) = None →
       dict_get id (tts_tasks (world s')) = Some t' →
       status t' = "pending" ∧ ∃ now req, ev = Submit id now req)
    ∧ (∀ id t t', dict_get id (tts_tasks (world s)) = Some t →
         dict_get id (tts_tasks (world s')) = Some t' →
         (status t' = status t ∨ code_transition (status t) (status t'))
         ∧ (status t = "completed" ∨ status t = "failed" → status t' = status t)
         ∧ (status t = "pending" → status t' = "failed" →
              ∃ msg now rm, ev = WorkerStart id (Some msg) now rm))).
  { intros ->. split; [congruence|]. intros id t t' H1 H2. simplify_eq.
    split_and!; [by left | done |]. intros ->. done. }
  assert (Hless : (∀ id t', dict_get id (tts_tasks (world s')) = Some t' →
                     dict_get id (tts_tasks (world s)) = Some t') →
    (∀ id t', dict_get id (tts_tasks (world s)) = None →
       dict_get id (tts_tasks (world s')) = Some t' →
       status t' = "pending" ∧ ∃ now req, ev = Submit id now req)
    ∧ (∀ id t t', dict_get id (tts_tasks (world s)) = Some t →
         dict_get id (tts_tasks (world s')) = Some t' →
         (status t' = status t ∨ code_transition (status t) (status t'))
         ∧ (status t = "completed" ∨ status t = "failed" → status t' = status t)
         ∧ (status t = "pending" → status t' = "failed" →
              ∃ msg now rm, ev = WorkerStart id (Some msg) now rm))).
  { intros Hsub. split.
    - intros id t' H1 H2%Hsub. congruence.
    - intros id t t' H1 H2%Hsub. simplify_eq.
      split_and!; [by left | done |]. intros ->. done. }
  destruct ev as [id now req|id mk now rm|id res now rm|id|id|id rm|now rm];
    simpl in Hstep.
  - (* Submit *)
    case_decide as Hfresh; [done|]. simplify_eq. simpl. split.
    + intros id' t'. rewrite dict_get_set. case_decide; [|congruence].
      intros _ ?. simplify_eq. eauto.
    + intros id' t t' Hget. rewrite dict_get_set. case_decide; subst.
      * destruct Hfresh. apply Hit. eauto.
      * intros. simplify_eq. split_and!; [by left | done |]. intros ->. done.
  - (* WorkerStart *)
    destruct (dict_get id (background s)) as [req|] eqn:Hb; [|done].
    pose proof (start_cases id req mk now rm (world s)) as Hc.
    destruct (process_tts_task_start _ _ _ _ _ _) as [w' r]. simplify_eq. simpl in *.
    destruct (dict_get id (tts_tasks (world s))) as [t0|] eqn:Ht0; [|apply Hsame; apply Hc].
    assert (status t0 = "pending") as Hp.
    { specialize (Htask _ _ Ht0). unfold phase_of in Htask. rewrite Hb in Htask.
      apply Htask. }
    assert (∀ t1, (mk = None → status t1 = "processing") →
              (is_Some mk → status t1 = "failed") →
              status t1 = "processing" ∨ status t1 = "failed" →
              tts_tasks w' = dict_set id t1 (tts_tasks (world s)) →
      (∀ id0 t', dict_get id0 (tts_tasks (world s)) = None →
         dict_get id0 (tts_tasks w') = Some t' →
         status t' = "pending" ∧ ∃ now0 req0, WorkerStart id mk now rm = Submit id0 now0 req0)
      ∧ (∀ id0 t t', dict_get id0 (tts_tasks (world s)) = Some t →
           dict_get id0 (tts_tasks w') = Some t' →
           (status t' = status t ∨ code_transition (status t) (status t'))
           ∧ (status t = "completed" ∨ status t = "failed" → status t' = status t)
           ∧ (status t = "pending" → status t' = "failed" →
                ∃ msg now0 rm0, WorkerStart id mk now rm = WorkerStart id0 (Some msg) now0 rm0)))
      as Hupd.
    { intros t1 Hnone Hsome Heither ->. split.
      - intros id0 t'. rewrite dict_get_set. case_decide; subst; congruence.
      - intros id0 t t'. rewrite dict_get_set. case_decide; subst.
        + intros ? ?. simplify_eq. rewrite Hp. split_and!.
          * right. destruct Heither as [->| ->]; [left; by left | by right].
          * by intros [?|?].
          * intros _ Hf. destruct mk as [msg|]; [eauto|].
            rewrite Hnone in Hf; done.
        + intros. simplify_eq. split_and!; [by left | done |]. intros ->. done. }
    destruct mk as [msg|]; destruct Hc as [Hw _].
    + eapply Hupd; [| | |done]; simpl; auto. done.
    + eapply Hupd; [| | |done]; simpl; auto. by intros [? ?].
  - (* WorkerResume *)
    destruct (dict_get id (awaiting s)) as [loc|] eqn:Ha; [|done].
    pose proof (resume_cases id loc res now rm (world s)) as Hc.
    destruct (process_tts_task_resume _ _ _ _ _ _) as [w' r]. simplify_eq. simpl in *.
    destruct (dict_get id (tts_tasks (world s))) as [t0|] eqn:Ht0; [|apply Hsame; apply Hc].
    assert (status t0 = "processing") as Hp.
    { specialize (Htask _ _ Ht0). unfold phase_of in Htask.
      destruct (dict_get id (background s)) eqn:Hb.
      - rewrite Hapart in Ha; [done | eauto].
      - rewrite Ha in Htask. apply Htask. }
    assert (∀ t1, status t1 = "completed" ∨ status t1 = "failed" →
              tts_tasks w' = dict_set id t1 (tts_tasks (world s)) →
      (∀ id0 t', dict_get id0 (tts_tasks (world s)) = None →
         dict_get id0 (tts_tasks w') = Some t' →
         status t' = "pending" ∧ ∃ now0 req0, WorkerResume id res now rm = Submit id0 now0 req0)
      ∧ (∀ id0 t t', dict_get id0 (tts_tasks (world s)) = Some t →
           dict_get id0 (tts_tasks w') = Some t' →
           (status t' = status t ∨ code_transition (status t) (status t'))
           ∧ (status t = "completed" ∨ status t = "failed" → status t' = status t)
           ∧ (status t = "pending" → status t' = "failed" →
                ∃ msg now0 rm0, WorkerResume id res now rm = WorkerStart id0 (Some msg) now0 rm0)))
      as Hupd.
    { intros t1 Heither ->. split.
      - intros id0 t'. rewrite dict_get_set. case_decide; subst; congruence.
      - intros id0 t t'. rewrite dict_get_set. case_decide; subst.
        + intros ? ?. simplify_eq. rewrite Hp. split_and!.
          * right. left. destruct Heither as [->| ->]; [right; by left | right; by right].
          * by intros [?|?].
          * done.
        + intros. simplify_eq. split_and!; [by left | done |]. intros ->. done. }
    destruct res as [m out|msg]; destruct Hc as [Hw _];
      (eapply Hupd; [|done]); simpl; auto.
  - simplify_eq. by apply Hsame.
  - simplify_eq. by apply Hsame.
  - (* DeleteTask *)
    pose proof (delete_tasks id rm (world s)) as Hd.
    destruct (delete_tts_task _ _ _) as [w' r]. simplify_eq. simpl in *.
    destruct Hd as [Hw|Hw]; [by apply Hsame|].
    apply Hless. intros id0 t'. rewrite Hw, dict_get_remove. by case_decide.
  - (* SweepTick *)
    destruct (sweeper s); [|done].
    destruct (cleanup_shrinks now rm (world s) Hkeys) as [ids Hw].
    destruct (cleanup_old_tasks _ _ _) as [w' r]. simplify_eq. simpl in Hw. subst w'.
    apply Hless. cbn [world]. intros id0 t'. rewrite removed_get by done. by case_decide.
Qed.


(** The amended C2 on the step in which [os.makedirs] fails. *)
Lemma status_transitions_witness :
  (∀ id t', dict_get id (tts_tasks (world (state_after submitted))) = None →
     dict_get id (tts_tasks (world (state_after (submitted ++ [makedirs_fails])))) = Some t' →
     status t' = "pending" ∧ ∃ now req, makedirs_fails = Submit id now req)
  ∧ (∀ id t t', dict_get id (tts_tasks (world (state_after submitted))) = Some t →
       dict_get id (tts_tasks (world (state_after (submitted ++ [makedirs_fails])))) = Some t' →
       (status t' = status t ∨ code_transition (status t) (status t'))
       ∧ (status t = "completed" ∨ status t = "failed" → status t' = status t)
       ∧ (status t = "pending" → status t' = "failed" →
            ∃ msg now rm, makedirs_fails = WorkerStart id (Some msg) now rm)).
Proof.
  apply (status_transitions (state_after submitted) makedirs_fails
           (state_after (submitted ++ [makedirs_fails]))
           (WorkerStarted
              (Raised (OSError "[Errno 13] Permission denied: 'temp_tts_t1'")))).
  - apply state_after_reachable. vm_compute. eauto.
  - vm_compute. reflexivity.
Defined.

(** C3, counterexample. The engine raises "engine blew up": the worker ends
    by raising that exception. *)
Lemma failure_reraised :
  step (state_after started) engine_blows_up =
    Some (state_after (started ++ [engine_blows_up]),
          WorkerEnded (Raise (EngineError "engine blew up")))
  ∧ ¬ failure_absorbed.
Proof.
  assert (step (state_after started) engine_blows_up =
    Some (state_after (started ++ [engine_blows_up]),
          WorkerEnded (Raise (EngineError "engine blew up")))) as Hst
    by (vm_compute; reflexivity).
  split; [done|].
  intros H.
  assert (reachable (state_after started)) as Hr
    by (apply state_after_reachable; vm_compute; eauto).
  assert (dict_get "t1" (tts_tasks (world (state_after started))) =
            Some {| status := "processing"; created_at := 0; request := demo_request;
                    completed_at := None; output_file := None; error := None |})
    as Hget by (vm_compute; reflexivity).
  destruct (H _ _ _ _ _ _ _ _ Hr Hst Hget) as [_ Ho].
  discriminate Ho.
Qed.

(** C3, amended. When the engine call of a task whose record is still in
    the dictionary raises, the worker stores status ["failed"], the error
    text and the completion time in the record, and then ends by raising
    an exception to whoever runs the background task: the engine's own
    exception, after removing the working directory, when [rmtree] does
    not fail. *)
Theorem failure_recorded_and_reraised s id msg now rm s' o t :
  reachable s →
  step s (WorkerResume id (EngineRaise msg) now rm) = Some (s', o) →
  dict_get id (tts_tasks (world s)) = Some t →
  (∃ t', dict_get id (tts_tasks (world s')) = Some t'
         ∧ status t' = "failed" ∧ error t' = Some msg ∧ completed_at t' = Some now)
  ∧ (∃ e, o = WorkerEnded (Raise e))
  ∧ (rm = None →
       o = WorkerEnded (Raise (EngineError msg)) ∧ temp_dir_of id ∉ fs (world s')).
Proof.
  intros Hs Hstep Hget. apply reachable_Inv in Hs.
  simpl in Hstep.
  destruct (dict_get id (awaiting s)) as [loc|] eqn:Ha; [|done].
  pose proof (inv_frame _ Hs _ _ Ha) as Hloc.
  unfold process_tts_task_resume, try_after_await, except_block in Hstep.
  rewrite Hget, Hloc in Hstep. cbn [with_tasks fs tts_tasks str] in Hstep.
  destruct (decide (temp_dir_of id ∈ fs (world s))) as [Hd|Hd].
  - destruct rm as [m|]; simplify_eq; unfold with_fs, with_tasks;
      cbn [world tts_tasks fs].
    + rewrite dict_get_set_eq. split_and!; [eexists; by split_and! | eauto | done].
    + rewrite dict_get_set_eq. split_and!; [eexists; by split_and! | eauto |].
      intros _. split; [done | set_solver].
  - simplify_eq. unfold with_tasks. cbn [world tts_tasks fs].
    rewrite dict_get_set_eq. split_and!; [eexists; by split_and! | eauto | done].
Qed.

(** The amended C3 on the "engine blew up" run. *)
Lemma failure_recorded_and_reraised_witness :
  (∃ t', dict_get "t1" (tts_tasks (world (state_after (started ++ [engine_blows_up])))) = Some t'
         ∧ status t' = "failed" ∧ error t' = Some "engine blew up"
         ∧ completed_at t' = Some 2)
  ∧ (∃ e, WorkerEnded (Raise (EngineError "engine blew up")) = WorkerEnded (Raise e))
  ∧ (@None string = None →
       WorkerEnded (Raise (EngineError "engine blew up")) =
         WorkerEnded (Raise (EngineError "engine blew up"))
       ∧ temp_dir_of "t1" ∉ fs (world (state_after (started ++ [engine_blows_up])))).
Proof.
  apply (failure_recorded_and_reraised (state_after started) "t1" "engine blew up" 2 None
           (state_after (started ++ [engine_blows_up]))
           (WorkerEnded (Raise (EngineError "engine blew up")))
           {| status := "processing"; created_at := 0; request := demo_request;
              completed_at := None; output_file := None; error := None |}).
  - apply state_after_reachable. vm_compute. eauto.
  - vm_compute. reflexivity.
  - vm_compute. reflexivity.
Defined.

(** C4. Submit, delete, then let the worker start: the worker creates
    [temp_tts_t1], fails with [KeyError] on the missing record, fails again
    in its handler before the cleanup, and ends.  The id is unknown (404)
    and the directory is on disk with no coroutine left to remove it. *)
Theorem delete_then_run_leaves_directory :
  step (state_after deleted_before_start) (WorkerStart "t1" None 1 None) =
    Some (state_after (deleted_before_start ++ [WorkerStart "t1" None 1 None]),
          WorkerStarted (Raised (KeyError "t1")))
  ∧ get_tts_status "t1"
      (world (state_after (deleted_before_start ++ [WorkerStart "t1" None 1 None])))
    = Raise (HTTPException 404 "Task not found")
  ∧ temp_dir_of "t1" ∈
      fs (world (state_after (deleted_before_start ++ [WorkerStart "t1" None 1 None])))
  ∧ background (state_after (deleted_before_start ++ [WorkerStart "t1" None 1 None])) = []
  ∧ awaiting (state_after (deleted_before_start ++ [WorkerStart "t1" None 1 None])) = [].
Proof. split_and!; vm_compute; reflexivity. Qed.

(** C10. Whenever the [except] block of [process_tts_task] runs, before or
    after the [await], the local [temp_dir] is assigned to
    [temp_tts_<task_id>]; no step of a worker ends in an
    [UnboundLocalError]. *)
Theorem handler_sees_temp_dir :
  (∀ task_id req mk w w1 loc e,
     try_before_await task_id req mk w = (w1, Caught loc e) →
     temp_dir loc = Some (temp_dir_of task_id))
  ∧ (∀ s task_id frame res now w1 loc e,
       reachable s →
       dict_get task_id (awaiting s) = Some frame →
       try_after_await task_id frame res now (world s) = (w1, Caught loc e) →
       temp_dir loc = Some (temp_dir_of task_id))
  ∧ (∀ s ev s' o var,
       reachable s → step s ev = Some (s', o) →
       o ≠ WorkerStarted (Raised (UnboundLocalError var))
       ∧ o ≠ WorkerEnded (Raise (UnboundLocalError var))).
Proof.
  assert (H1 : ∀ task_id req mk w w1 loc e,
     try_before_await task_id req mk w = (w1, Caught loc e) →
     temp_dir loc = Some (temp_dir_of task_id)).
  { intros task_id req mk w w1 loc e. unfold try_before_await.
    destruct mk; simpl; [by intros; simplify_eq|].
    destruct (dict_get task_id (tts_tasks w)); intros; by simplify_eq. }
  assert (H2 : ∀ s task_id frame res now w1 loc e,
       reachable s →
       dict_get task_id (awaiting s) = Some frame →
       try_after_await task_id frame res now (world s) = (w1, Caught loc e) →
       temp_dir loc = Some (temp_dir_of task_id)).
  { intros s task_id frame res now w1 loc e Hs%reachable_Inv Hf.
    pose proof (inv_frame _ Hs _ _ Hf) as Hloc. unfold try_after_await.
    destruct res; [destruct (dict_get task_id (tts_tasks (world s)))|];
      intros; by simplify_eq. }
  assert (Hex : ∀ task_id loc e now rm w w' e' var,
     temp_dir loc = Some (temp_dir_of task_id) →
     (∀ v, e ≠ UnboundLocalError v) →
     except_block task_id loc e now rm w = (w', e') → e' ≠ UnboundLocalError var).
  { intros task_id loc e now rm w w' e' var Hloc He. unfold except_block.
    rewrite Hloc. repeat case_match; intros; simplify_eq; done. }
  split_and!; [done | done |].
  intros s ev s' o var Hs Hstep.
  destruct ev as [id now req|id mk now rm|id res now rm|id|id|id rm|now rm];
    simpl in Hstep.
  - case_decide; by simplify_eq.
  - destruct (dict_get id (background s)) as [req|]; [|done].
    unfold process_tts_task_start in Hstep.
    destruct (try_before_await id req mk (world s)) as [w1 [loc|loc e]] eqn:Htry.
    + by simplify_eq.
    + destruct (except_block id loc e now rm w1) as [w' e'] eqn:Hexc. simplify_eq.
      split; [|done]. intros [= ->].
      eapply (Hex id loc e); [by eapply H1 | | done | done].
      unfold try_before_await in Htry.
      destruct mk; simpl in Htry; [by simplify_eq|].
      destruct (dict_get id (tts_tasks (world s))); by simplify_eq.
  - destruct (dict_get id (awaiting s)) as [frame|] eqn:Hf; [|done].
    unfold process_tts_task_resume in Hstep.
    destruct (try_after_await id frame res now (world s)) as [w1 [[]|loc e]] eqn:Htry.
    + by simplify_eq.
    + destruct (except_block id loc e now rm w1) as [w' e'] eqn:Hexc. simplify_eq.
      split; [done|]. intros [= ->].
      eapply (Hex id loc e); [by eapply H2 | | done | done].
      unfold try_after_await in Htry.
      destruct res; [destruct (dict_get id (tts_tasks (world s)))|]; by simplify_eq.
  - by simplify_eq.
  - by simplify_eq.
  - destruct (delete_tts_task _ _ _). by simplify_eq.
  - destruct (sweeper s); [|done]. destruct (cleanup_old_tasks _ _ _). by simplify_eq.
Qed.

(** C10 on the "engine blew up" run. *)
Lemma handler_sees_temp_dir_witness :
  WorkerEnded (Raise (EngineError "engine blew up")) ≠
    WorkerStarted (Raised (UnboundLocalError "temp_dir"))
  ∧ WorkerEnded (Raise (EngineError "engine blew up")) ≠
    WorkerEnded (Raise (UnboundLocalError "temp_dir")).
Proof.
  apply (proj2 (proj2 handler_sees_temp_dir) (state_after started) engine_blows_up
           (state_after (started ++ [engine_blows_up]))
           (WorkerEnded (Raise (EngineError "engine blew up"))) "temp_dir").
  - apply state_after_reachable. vm_compute. eauto.
  - vm_compute. reflexivity.
Defined.

(** ** Further properties of the task layer *)

(** How one step changes the dictionary. *)
Lemma step_tasks s ev s' o :
  reachable s →
  step s ev = Some (s', o) →
  (∃ id now req, ev = Submit id now req ∧ (id ∉ issued s)
     ∧ tts_tasks (world s') =
         dict_set id {| status := "pending"; created_at := now; request := req;
                        completed_at := None; output_file := None; error := None |}
           (tts_tasks (world s)))
  ∨ (∃ id t t', dict_get id (tts_tasks (world s)) = Some t
       ∧ tts_tasks (world s') = dict_set id t' (tts_tasks (world s))
       ∧ created_at t' = created_at t ∧ request t' = request t)
  ∨ (∀ id, dict_get id (tts_tasks (world s')) = dict_get id (tts_tasks (world s))
           ∨ dict_get id (tts_tasks (world s')) = None).
Proof.
  intros Hs%reachable_Inv Hstep.
  destruct ev as [id now req|id mk now rm|id res now rm|id|id|id rm|now rm];
    simpl in Hstep.
  - case_decide as Hfresh; [done|]. simplify_eq. left. by eexists _, _, _.
  - destruct (dict_get id (background s)) as [req|] eqn:Hb; [|done].
    pose proof (start_cases id req mk now rm (world s)) as Hc.
    destruct (process_tts_task_start _ _ _ _ _ _) as [w' r]. simplify_eq.
    cbn [world].
    destruct (dict_get id (tts_tasks (world s))) as [t|] eqn:Ht.
    + right. left. destruct mk; destruct Hc as [-> _]; eauto 10.
    + right. right. destruct Hc as [-> _]. auto.
  - destruct (dict_get id (awaiting s)) as [loc|] eqn:Ha; [|done].
    pose proof (resume_cases id loc res now rm (world s)) as Hc.
    destruct (process_tts_task_resume _ _ _ _ _ _) as [w' r]. simplify_eq.
    cbn [world].
    destruct (dict_get id (tts_tasks (world s))) as [t|] eqn:Ht.
    + right. left. destruct res; destruct Hc as [-> _]; eauto 10.
    + right. right. destruct Hc as [-> _]. auto.
  - simplify_eq. right. right. auto.
  - simplify_eq. right. right. auto.
  - pose proof (delete_tasks id rm (world s)) as Hd.
    destruct (delete_tts_task _ _ _) as [w' r]. simplify_eq. cbn [world fst] in *.
    right. right. intros id'. destruct Hd as [-> | ->]; [auto|].
    rewrite dict_get_remove. case_decide; auto.
  - destruct (sweeper s); [|done].
    destruct (cleanup_shrinks now rm (world s) (inv_keys _ Hs)) as [ids Hw].
    destruct (cleanup_old_tasks now rm (world s)) as [w' r]. simplify_eq.
    cbn [world fst] in *. subst w'.
    right. right. intros id'. rewrite removed_get by apply (inv_keys _ Hs).
    case_decide; auto.
Qed.

(** An issued id that is not in the dictionary is not in it after any run. *)
Lemma absent_stays_absent s evs s' id :
  reachable s →
  id ∈ issued s →
  dict_get id (tts_tasks (world s)) = None →
  run s evs = Some s' →
  dict_get id (tts_tasks (world s')) = None.
Proof.
  revert s. induction evs as [|ev evs IH]; intros s Hs Hid Hnone Hrun;
    simpl in Hrun.
  - by simplify_eq.
  - destruct (step s ev) as [[s1 o]|] eqn:Hstep; [|done].
    apply (IH s1); [by eapply reachable_step | | | done].
    + destruct ev; simpl in Hstep; repeat case_match; simplify_eq; simpl;
        try done; set_solver.
    + destruct (step_tasks _ _ _ _ Hs Hstep)
        as [(id0 & now & req & -> & Hfresh & ->)
           |[(id0 & t & t' & Ht & -> & _)|Hsub]].
      * rewrite dict_get_set_ne; [done | by intros ->].
      * rewrite dict_get_set_ne; [done | intros ->; congruence].
      * destruct (Hsub id) as [->|]; done.
Qed.

(** X4. An id that [uuid4] has handed out and that is not in the
    dictionary (deleted, or swept) never comes back, whatever happens next:
    no worker step re-creates the record, and the status and result
    endpoints keep answering 404. *)
Theorem forgotten_id_stays_unknown s evs s' id :
  reachable s →
  id ∈ issued s →
  dict_get id (tts_tasks (world s)) = None →
  run s evs = Some s' →
  dict_get id (tts_tasks (world s')) = None
  ∧ get_tts_status id (world s') = Raise (HTTPException 404 "Task not found")
  ∧ get_tts_result id (world s') = Raise (HTTPException 404 "Task not found").
Proof.
  intros Hs Hid Hnone Hrun.
  pose proof (absent_stays_absent s evs s' id Hs Hid Hnone Hrun) as H.
  unfold get_tts_status, get_tts_result. by rewrite H.
Qed.

(** X1. [text_to_speech] answers with the id, status ["pending"] and the
    creation time, schedules one background task for that id, and touches
    no directory; right after it the status endpoint reports the task as
    pending with that creation time and no completion time, output or
    error, the result endpoint answers 400, and no other record has
    changed. *)
Theorem submit_then_status task_id now req w :
  match text_to_speech task_id now req w with
  | (w', bg, r) =>
      r = TTSResponse.mk task_id "pending" now
      ∧ bg = (task_id, req)
      ∧ fs w' = fs w
      ∧ get_tts_status task_id w' =
          Return (TTSStatus.mk task_id "pending" now None None None)
      ∧ get_tts_result task_id w' =
          Raise (HTTPException 400 "Task is not completed. Current status: pending")
      ∧ ∀ id', id' ≠ task_id →
          dict_get id' (tts_tasks w') = dict_get id' (tts_tasks w)
  end.
Proof.
  unfold text_to_speech, get_tts_status, get_tts_result. cbn [with_tasks tts_tasks fs].
  rewrite dict_get_set_eq. split_and!; try done.
  intros id' Hne. by rewrite dict_get_set_ne.
Qed.

(** [delete_tts_task] without the impossible [KeyError] of [del]. *)
Lemma delete_cases task_id rm w :
  delete_tts_task task_id rm w =
    match dict_get task_id (tts_tasks w) with
    | None => (w, Raise (HTTPException 404 "Task not found"))
    | Some _ =>
        if decide (temp_dir_of task_id ∈ fs w) then
          match rm with
          | Some m => (w, Raise (OSError m))
          | None =>
              ({| tts_tasks := dict_remove task_id (tts_tasks w);
                  fs := fs w ∖ {[temp_dir_of task_id]} |},
               Return ("Task " +:+ task_id +:+ " deleted successfully"))
          end
        else
          ({| tts_tasks := dict_remove task_id (tts_tasks w); fs := fs w |},
           Return ("Task " +:+ task_id +:+ " deleted successfully"))
    end.
Proof.
  unfold delete_tts_task, dict_del.
  destruct (dict_get task_id (tts_tasks w)) as [t|] eqn:Hget; [|done].
  case_decide; [destruct rm; [done|]|]; cbn [with_fs with_tasks tts_tasks fs];
    by rewrite ?Hget.
Qed.

(** X2. When [delete_tts_task] succeeds, the record existed, the task's
    working directory is not on disk afterwards, the status, result and
    delete endpoints all answer 404 for that id, and the records and
    working directories of all other ids are as before. *)
Theorem delete_removes task_id rm w w' msg :
  delete_tts_task task_id rm w = (w', Return msg) →
  msg = "Task " +:+ task_id +:+ " deleted successfully"
  ∧ is_Some (dict_get task_id (tts_tasks w))
  ∧ (temp_dir_of task_id ∉ fs w')
  ∧ get_tts_status task_id w' = Raise (HTTPException 404 "Task not found")
  ∧ get_tts_result task_id w' = Raise (HTTPException 404 "Task not found")
  ∧ (∀ rm', delete_tts_task task_id rm' w' =
              (w', Raise (HTTPException 404 "Task not found")))
  ∧ ∀ id', id' ≠ task_id →
      dict_get id' (tts_tasks w') = dict_get id' (tts_tasks w)
      ∧ (temp_dir_of id' ∈ fs w' ↔ temp_dir_of id' ∈ fs w).
Proof.
  rewrite delete_cases.
  destruct (dict_get task_id (tts_tasks w)) as [t|] eqn:Hget; [|done].
  intros Heq.
  assert (msg = "Task " +:+ task_id +:+ " deleted successfully"
          ∧ tts_tasks w' = dict_remove task_id (tts_tasks w)
          ∧ (fs w' = fs w ∖ {[temp_dir_of task_id]}
             ∨ (fs w' = fs w ∧ temp_dir_of task_id ∉ fs w))) as (-> & Ht & Hf).
  { case_decide; [destruct rm; [done|]|]; simplify_eq; cbn [tts_tasks fs]; auto. }
  assert (dict_get task_id (tts_tasks w') = None) as Hnone
    by (rewrite Ht; apply dict_get_remove_eq).
  split_and!; [done | eauto | | | | |].
  - destruct Hf as [->|[-> ?]]; set_solver.
  - unfold get_tts_status. by rewrite Hnone.
  - unfold get_tts_result. by rewrite Hnone.
  - intros rm'. rewrite delete_cases. by rewrite Hnone.
  - intros id' Hne. rewrite Ht, dict_get_remove_ne by done. split; [done|].
    destruct Hf as [->|[-> ?]]; [|done].
    rewrite elem_of_difference, elem_of_singleton.
    split; [tauto|]. intros ?. split; [done|]. by intros ?%temp_dir_of_inj.
Qed.


(** X5. As long as a record is in the dictionary, its ["created_at"] and
    ["request"] entries are the ones stored at submission: no handler, worker
    step or sweep changes them. *)
Theorem created_at_and_request_never_change s evs s' id t t' :
  reachable s →
  run s evs = Some s' →
  dict_get id (tts_tasks (world s)) = Some t →
  dict_get id (tts_tasks (world s')) = Some t' →
  created_at t' = created_at t ∧ request t' = request t.
Proof.
  intros Hs Hrun. revert s Hs t Hrun.
  induction evs as [|ev evs IH]; intros s Hs t Hrun Hget Hget'; simpl in Hrun.
  - by simplify_eq.
  - destruct (step s ev) as [[s1 o]|] eqn:Hstep; [|done].
    assert (reachable s1) as Hs1 by (by eapply reachable_step).
    assert (id ∈ issued s) as Hid
      by (apply (inv_issued_task _ (reachable_Inv _ Hs)); eauto).
    destruct (step_tasks _ _ _ _ Hs Hstep)
      as [(id0 & now & req & -> & Hfresh & Hw)
         |[(id0 & t0 & t1 & Ht0 & Hw & Hc & Hr)|Hsub]].
    + apply (IH s1 Hs1 t Hrun); [|done].
      rewrite Hw, dict_get_set_ne; [done | by intros ->].
    + destruct (decide (id0 = id)) as [->|Hne].
      * simplify_eq. rewrite <- Hc, <- Hr.
        apply (IH s1 Hs1 t1 Hrun); [|done]. rewrite Hw. apply dict_get_set_eq.
      * apply (IH s1 Hs1 t Hrun); [|done]. by rewrite Hw, dict_get_set_ne.
    + destruct (Hsub id) as [Heq|Hnone].
      * apply (IH s1 Hs1 t Hrun); [|done]. by rewrite Heq.
      * assert (id ∈ issued s1) as Hid1.
        { clear -Hstep Hid. destruct ev; simpl in Hstep; repeat case_match;
            simplify_eq; simpl; try done; set_solver. }
        pose proof (absent_stays_absent s1 evs s' id Hs1 Hid1 Hnone Hrun) as Hn.
        congruence.
Qed.

(** X6. In every reachable state the status of a record is one of
    ["pending"], ["processing"], ["completed"], ["failed"], its
    ["completed_at"] entry is present exactly when the status is
    ["completed"] or ["failed"], and [get_tts_status] reports the entries of
    the record as they are. *)
Theorem completed_at_iff_terminal s id t :
  reachable s →
  dict_get id (tts_tasks (world s)) = Some t →
  (status t = "pending" ∨ status t = "processing"
   ∨ status t = "completed" ∨ status t = "failed")
  ∧ (is_Some (completed_at t) ↔ status t = "completed" ∨ status t = "failed")
  ∧ get_tts_status id (world s) =
      Return (TTSStatus.mk id (status t) (created_at t) (completed_at t)
                (output_file t) (error t)).
Proof.
  intros Hs%reachable_Inv Hget. pose proof (inv_task _ Hs _ _ Hget) as Hok.
  split_and!; [| |unfold get_tts_status; by rewrite Hget].
  - destruct (phase_of s id); simpl in Hok; [tauto | tauto |].
    destruct Hok as [(-> & _)|(-> & _)]; tauto.
  - destruct (phase_of s id); simpl in Hok.
    + destruct Hok as (-> & -> & _). split; [by intros [? ?] | by intros [?|?]].
    + destruct Hok as (-> & -> & _). split; [by intros [? ?] | by intros [?|?]].
    + destruct Hok as [(-> & ? & _)|(-> & ? & _)]; split; auto.
Qed.

(** X7. When the engine call returns and the record is still there, the
    worker ends without an exception and leaves every directory in place;
    the status endpoint then reports ["completed"] with the engine's path,
    the completion time and no error, the result endpoint serves that path
    (404 "Output file not found" if the engine returned an empty path), and
    no other record has changed. *)
Theorem worker_success s id message out now rm s' o t :
  reachable s →
  step s (WorkerResume id (EngineReturn message out) now rm) = Some (s', o) →
  dict_get id (tts_tasks (world s)) = Some t →
  o = WorkerEnded (Return tt)
  ∧ fs (world s') = fs (world s)
  ∧ get_tts_status id (world s') =
      Return (TTSStatus.mk id "completed" (created_at t) (Some now) (Some out) None)
  ∧ (out ≠ "" → get_tts_result id (world s') = Return out)
  ∧ (out = "" → get_tts_result id (world s') =
                  Raise (HTTPException 404 "Output file not found"))
  ∧ ∀ id', id' ≠ id →
      dict_get id' (tts_tasks (world s')) = dict_get id' (tts_tasks (world s)).
Proof.
  intros Hs%reachable_Inv Hstep Hget. simpl in Hstep.
  destruct (dict_get id (awaiting s)) as [loc|] eqn:Ha; [|done].
  assert (error t = None) as Herr.
  { pose proof (inv_task _ Hs _ _ Hget) as Hok. unfold phase_of in Hok.
    destruct (dict_get id (background s)) eqn:Hb.
    - rewrite (inv_apart _ Hs id) in Ha; [done | eauto].
    - rewrite Ha in Hok. apply Hok. }
  unfold process_tts_task_resume, try_after_await in Hstep. rewrite Hget in Hstep.
  simplify_eq. unfold get_tts_status, get_tts_result.
  cbn [world with_tasks tts_tasks fs]. rewrite dict_get_set_eq.
  cbn [update_completed status created_at completed_at output_file error].
  rewrite Herr. split_and!; try done.
  - intros Hne. cbn. by destruct (String.eqb_spec out "").
  - intros ->. done.
  - intros id' Hne. by rewrite dict_get_set_ne.
Qed.

(** X9. A worker whose record has gone from the dictionary ends with
    [KeyError]: started, it has created the working directory and leaves it
    on disk; resumed after the engine call, whatever the engine's outcome,
    it changes neither the dictionary nor the disk. *)
Theorem orphaned_worker s id :
  dict_get id (tts_tasks (world s)) = None →
  (∀ req now rm,
     dict_get id (background s) = Some req →
     ∃ s', step s (WorkerStart id None now rm) =
             Some (s', WorkerStarted (Raised (KeyError id)))
           ∧ tts_tasks (world s') = tts_tasks (world s)
           ∧ fs (world s') = {[temp_dir_of id]} ∪ fs (world s)
           ∧ dict_get id (background s') = None
           ∧ awaiting s' = awaiting s)
  ∧ (∀ frame res now rm,
       dict_get id (awaiting s) = Some frame →
       ∃ s', step s (WorkerResume id res now rm) =
               Some (s', WorkerEnded (Raise (KeyError id)))
             ∧ world s' = world s
             ∧ dict_get id (awaiting s') = None).
Proof.
  intros Hnone. split.
  - intros req now rm Hb. eexists. simpl. rewrite Hb.
    unfold process_tts_task_start, try_before_await, except_block.
    unfold with_fs, with_tasks. cbn [tts_tasks fs]. rewrite Hnone.
    cbn [tts_tasks fs]. rewrite Hnone. split; [done|]. cbn [world background awaiting tts_tasks fs].
    split_and!; try done. apply dict_get_remove_eq.
  - intros frame res now rm Ha. eexists. simpl. rewrite Ha.
    unfold process_tts_task_resume, try_after_await, except_block.
    destruct res; rewrite ?Hnone; (split; [done|]);
      cbn [world awaiting]; (split; [done | apply dict_get_remove_eq]).
Qed.

(** How one step changes the directories: only the working directory of the
    task the event is about, or of tasks the sweep drops. *)
Lemma removed_keeps_dir ids w id :
  NoDup (dict_keys (tts_tasks w)) →
  is_Some (dict_get id (tts_tasks (removed ids w))) →
  temp_dir_of id ∈ fs w → temp_dir_of id ∈ fs (removed ids w).
Proof.
  intros Hnd Hsome Hd. rewrite removed_get in Hsome by done.
  case_decide as Hin; [by destruct Hsome|].
  apply removed_fs. split; [done|]. by intros id' Hid' ->%temp_dir_of_inj.
Qed.

Lemma except_block_fs task_id loc e now rm w p :
  temp_dir loc = Some (temp_dir_of task_id) →
  p ≠ temp_dir_of task_id →
  p ∈ fs (except_block task_id loc e now rm w).1 ↔ p ∈ fs w.
Proof.
  intros Hloc Hne. unfold except_block. rewrite Hloc.
  repeat case_match; cbn [fst fs with_fs with_tasks]; set_solver.
Qed.

(** X10. In every reachable state, a record whose status is
    ["processing"] or ["completed"] has its working directory on disk: the
    layer removes the directory of a task only together with its record or
    when the task fails. *)
Theorem working_directory_kept s id t :
  reachable s →
  dict_get id (tts_tasks (world s)) = Some t →
  status t = "processing" ∨ status t = "completed" →
  temp_dir_of id ∈ fs (world s).
Proof.
  intros Hs. revert id t.
  induction Hs as [disk|s ev s' o Hs IH Hstep]; intros id0 t0 Hget Hst; [done|].
  pose proof (reachable_Inv _ Hs) as HI.
  destruct ev as [id now req|id mk now rm|id res now rm|id|id|id rm|now rm];
    simpl in Hstep.
  - case_decide as Hfresh; [done|]. simplify_eq.
    cbn [world text_to_speech with_tasks tts_tasks fs fst] in *.
    rewrite dict_get_set in Hget. case_decide; simplify_eq.
    + by destruct Hst.
    + by eapply IH.
  - destruct (dict_get id (background s)) as [req|] eqn:Hb; [|done].
    pose proof (start_cases id req mk now rm (world s)) as Hc.
    assert (∀ p, p ≠ temp_dir_of id →
              p ∈ fs (process_tts_task_start id req mk now rm (world s)).1 ↔
              p ∈ fs (world s)) as Hother.
    { intros p Hp. unfold process_tts_task_start, try_before_await.
      destruct mk as [m|].
      - pose proof (except_block_fs id
          {| temp_dir := Some (temp_dir_of id); tts_output := tts_output no_locals;
             rvc_output := rvc_output no_locals |} (OSError m) now rm (world s) p
          eq_refl Hp) as He.
        by destruct (except_block _ _ _ _ _ _).
      - cbn [with_fs tts_tasks fs].
        destruct (dict_get id (tts_tasks (world s))).
        + cbn [fst with_tasks fs]. set_solver.
        + match goal with |- context [except_block ?a ?b ?c ?d ?e ?f] =>
            pose proof (except_block_fs a b c d e f p eq_refl Hp) as He;
            destruct (except_block a b c d e f) end.
          cbn [fst fs] in *. set_solver. }
    assert (mk = None → is_Some (dict_get id (tts_tasks (world s))) →
              temp_dir_of id ∈ fs (process_tts_task_start id req mk now rm (world s)).1)
      as Hown.
    { intros -> [t Ht]. unfold process_tts_task_start, try_before_await.
      cbn [with_fs tts_tasks fs]. rewrite Ht. cbn [fst with_tasks fs]. set_solver. }
    destruct (process_tts_task_start _ _ _ _ _ _) as [w' r]. simplify_eq.
    cbn [world fst] in *.
    destruct (decide (id = id0)) as [->|Hne].
    + destruct (dict_get id0 (tts_tasks (world s))) as [t|] eqn:Ht.
      * destruct mk as [m|]; destruct Hc as [Hw _]; rewrite Hw, dict_get_set_eq in Hget;
          simplify_eq.
        -- by destruct Hst.
        -- apply Hown; eauto.
      * destruct Hc as [Hw _]. rewrite Hw in Hget. congruence.
    + apply Hother; [by intros ?%temp_dir_of_inj|].
      apply (IH id0 t0); [|done].
      destruct (dict_get id (tts_tasks (world s))) as [t|] eqn:Ht.
      * destruct mk; destruct Hc as [Hw _]; by rewrite Hw, dict_get_set_ne in Hget.
      * destruct Hc as [Hw _]. by rewrite Hw in Hget.
  - destruct (dict_get id (awaiting s)) as [loc|] eqn:Ha; [|done].
    pose proof (resume_cases id loc res now rm (world s)) as Hc.
    pose proof (inv_frame _ HI _ _ Ha) as Hloc.
    assert (∀ p, p ≠ temp_dir_of id →
              p ∈ fs (process_tts_task_resume id loc res now rm (world s)).1 ↔
              p ∈ fs (world s)) as Hother.
    { intros p Hp. unfold process_tts_task_resume, try_after_await.
      destruct res as [m out|m]; [destruct (dict_get id (tts_tasks (world s)))|];
        try (by cbn [fst with_tasks fs]);
        match goal with |- context [except_block ?a ?b ?c ?d ?e ?f] =>
          pose proof (except_block_fs a b c d e f p Hloc Hp) as He;
          destruct (except_block a b c d e f) end; cbn [fst fs] in *; done. }
    assert (∀ m out t, res = EngineReturn m out →
              dict_get id (tts_tasks (world s)) = Some t →
              fs (process_tts_task_resume id loc res now rm (world s)).1 = fs (world s))
      as Hown.
    { intros m out t -> Ht. unfold process_tts_task_resume, try_after_await.
      by rewrite Ht. }
    destruct (process_tts_task_resume _ _ _ _ _ _) as [w' r]. simplify_eq.
    cbn [world fst] in *.
    destruct (decide (id = id0)) as [->|Hne].
    + destruct (dict_get id0 (tts_tasks (world s))) as [t|] eqn:Ht.
      * destruct res as [m out|m]; destruct Hc as [Hw _];
          rewrite Hw, dict_get_set_eq in Hget; simplify_eq.
        -- rewrite (Hown m out t eq_refl eq_refl). apply (IH id0 t Ht). left.
           pose proof (inv_task _ HI _ _ Ht) as Hok. unfold phase_of in Hok.
           destruct (dict_get id0 (background s)) eqn:Hb.
           ++ rewrite (inv_apart _ HI id0) in Ha; [done | eauto].
           ++ rewrite Ha in Hok. apply Hok.
        -- by destruct Hst.
      * destruct Hc as [Hw _]. rewrite Hw in Hget. congruence.
    + apply Hother; [by intros ?%temp_dir_of_inj|].
      apply (IH id0 t0); [|done].
      destruct (dict_get id (tts_tasks (world s))) as [t|] eqn:Ht.
      * destruct res; destruct Hc as [Hw _]; by rewrite Hw, dict_get_set_ne in Hget.
      * destruct Hc as [Hw _]. by rewrite Hw in Hget.
  - simplify_eq. by eapply IH.
  - simplify_eq. by eapply IH.
  - rewrite delete_cases in Hstep.
    destruct (dict_get id (tts_tasks (world s))) as [t|] eqn:Ht;
      [|simplify_eq; by eapply IH].
    case_decide; [destruct rm|]; simplify_eq; cbn [world tts_tasks fs] in *;
      try (by eapply IH);
      rewrite dict_get_remove in Hget; case_decide; simplify_eq.
    + apply elem_of_difference. split; [by eapply IH|].
      by intros ?%elem_of_singleton%temp_dir_of_inj.
    + by eapply IH.
  - destruct (sweeper s); [|done].
    pose proof (cleanup_spec now rm (world s) (inv_keys _ HI)) as Hspec.
    destruct (cleanup_old_tasks now rm (world s)) as [w' r]. simplify_eq.
    cbn [world] in *.
    assert (∃ ids, w' = removed ids (world s)) as [ids ->].
    { destruct r as [[]|e]; [destruct Hspec as [-> _]; eauto|].
      destruct Hspec as (pre & _ & _ & _ & _ & _ & _ & _ & -> & _). eauto. }
    apply removed_keeps_dir; [apply (inv_keys _ HI) | eauto |].
    rewrite removed_get in Hget by apply (inv_keys _ HI).
    case_decide; [done|]. by eapply IH.
Qed.

(** X11. Once an iteration of [cleanup_old_tasks] has raised, the coroutine
    is gone: whatever happens afterwards, no further iteration runs. *)
Theorem sweeper_dies_with_first_exception s now rm s' e evs s'' :
  step s (SweepTick now rm) = Some (s', SweepEnded (Raise e)) →
  run s' evs = Some s'' →
  sweeper s'' = false ∧ ∀ now' rm', step s'' (SweepTick now' rm') = None.
Proof.
  intros Hstep Hrun.
  assert (sweeper s' = false) as Hdead.
  { simpl in Hstep. destruct (sweeper s); [|done].
    destruct (cleanup_old_tasks now rm (world s)) as [w' [[]|e']]; by simplify_eq. }
  clear Hstep.
  assert (sweeper s'' = false) as H.
  { revert s' Hdead Hrun. induction evs as [|ev evs IH]; intros s' Hdead Hrun;
      simpl in Hrun; [by simplify_eq|].
    destruct (step s' ev) as [[s1 o]|] eqn:Hstep; [|done].
    apply (IH s1); [|done].
    destruct ev; simpl in Hstep; rewrite ?Hdead in Hstep;
      repeat case_match; simplify_eq; done. }
  split; [done|]. intros now' rm'. simpl. by rewrite H.
Qed.

(** X12. Submission, worker start and a returning engine call in a row, for
    a fresh id: the three steps can happen, the status is then
    ["completed"] with the creation and completion times and the engine's
    path, the result endpoint serves a non-empty path, and the working
    directory is on disk. *)
Theorem submit_run_fetch s id now req now1 rm1 message out now2 rm2 :
  id ∉ issued s →
  ∃ s', run s [Submit id now req;
               WorkerStart id None now1 rm1;
               WorkerResume id (EngineReturn message out) now2 rm2] = Some s'
        ∧ get_tts_status id (world s') =
            Return (TTSStatus.mk id "completed" now (Some now2) (Some out) None)
        ∧ (out ≠ "" → get_tts_result id (world s') = Return out)
        ∧ temp_dir_of id ∈ fs (world s').
Proof.
  intros Hfresh. eexists. split.
  - cbn [run step]. rewrite decide_False by done.
    cbn [text_to_speech background fst snd]. rewrite dict_get_set_eq.
    unfold process_tts_task_start, try_before_await.
    unfold with_fs, with_tasks. cbn [world tts_tasks fs]. rewrite dict_get_set_eq.
    cbn [awaiting world]. rewrite dict_get_set_eq.
    unfold process_tts_task_resume, try_after_await.
    cbn [tts_tasks]. rewrite dict_get_set_eq. reflexivity.
  - unfold get_tts_status, get_tts_result. cbn [world with_tasks tts_tasks fs].
    rewrite dict_get_set_eq. cbn. split_and!; [done | | set_solver].
    intros Hne. by destruct (String.eqb_spec out "").
Qed.

(** X8. When [os.makedirs] raises at the start of the worker and the record
    is there, the record becomes ["failed"] with the text of the [OSError]
    and the completion time, the worker ends with an exception, and the
    engine is never called for this task: no coroutine is left to resume. *)
Theorem worker_start_failure s id msg now rm s' o t :
  reachable s →
  step s (WorkerStart id (Some msg) now rm) = Some (s', o) →
  dict_get id (tts_tasks (world s)) = Some t →
  get_tts_status id (world s') =
    Return (TTSStatus.mk id "failed" (created_at t) (Some now) None (Some msg))
  ∧ (∃ e, o = WorkerStarted (Raised e))
  ∧ dict_get id (background s') = None
  ∧ dict_get id (awaiting s') = None
  ∧ (∀ res now' rm', step s' (WorkerResume id res now' rm') = None).
Proof.
  intros Hs%reachable_Inv Hstep Hget. simpl in Hstep.
  destruct (dict_get id (background s)) as [req|] eqn:Hb; [|done].
  assert (dict_get id (awaiting s) = None) as Ha
    by (apply (inv_apart _ Hs); eauto).
  assert (output_file t = None) as Hout.
  { pose proof (inv_task _ Hs _ _ Hget) as Hok. unfold phase_of in Hok.
    rewrite Hb in Hok. apply Hok. }
  pose proof (start_cases id req (Some msg) now rm (world s)) as Hc.
  rewrite Hget in Hc.
  destruct (process_tts_task_start _ _ _ _ _ _) as [w' r]. simplify_eq.
  destruct Hc as [Hw [e ->]]. cbn [world background awaiting].
  unfold get_tts_status. rewrite Hw, dict_get_set_eq.
  cbn [update_failed status created_at completed_at output_file error].
  rewrite Hout. split_and!; [done | eauto | apply dict_get_remove_eq | done |].
  intros res now' rm'. simpl. by rewrite Ha.
Qed.

(** ** The string methods of the Notion client *)

Lemma append_assoc_s (a b c : string) : (a +:+ b) +:+ c = a +:+ (b +:+ c).
Proof.
  induction a as [|x a IH]; [done|].
  change (String x ((a +:+ b) +:+ c) = String x (a +:+ b +:+ c)). by rewrite IH.
Qed.

Lemma split_lines_nonempty s : split_lines s ≠ [].
Proof.
  destruct s as [|c s]; simpl; [done|].
  destruct (Ascii.eqb c newline); [done|]. by destruct (split_lines s).
Qed.

Lemma join_lines_cons l ls :
  ls ≠ [] → join_lines (l :: ls) = l +:+ nl +:+ join_lines ls.
Proof. by destruct ls. Qed.

Lemma join_lines_String c l ls :
  join_lines (String c l :: ls) = String c (join_lines (l :: ls)).
Proof. by destruct ls. Qed.

Lemma split_lines_one_line l : one_line l = true → split_lines l = [l].
Proof.
  induction l as [|c l IH]; simpl; [done|].
  intros [Hc Hl]%andb_prop. apply negb_true_iff in Hc. rewrite Hc.
  by rewrite IH.
Qed.

Lemma split_lines_append l s :
  one_line l = true → split_lines (l +:+ nl +:+ s) = l :: split_lines s.
Proof.
  induction l as [|c l IH].
  - intros _. change ("" +:+ nl +:+ s) with (String newline s).
    cbn [split_lines]. by rewrite Ascii.eqb_refl.
  - cbn [one_line]. intros [Hc Hl]%andb_prop. apply negb_true_iff in Hc.
    change (String c l +:+ nl +:+ s) with (String c (l +:+ nl +:+ s)).
    cbn [split_lines]. by rewrite Hc, IH.
Qed.

Lemma join_split_lines s : join_lines (split_lines s) = s.
Proof.
  induction s as [|c s IH]; [done|]. cbn [split_lines].
  destruct (Ascii.eqb_spec c newline) as [->|Hc].
  - rewrite join_lines_cons by apply split_lines_nonempty. by rewrite IH.
  - pose proof (split_lines_nonempty s) as Hne.
    destruct (split_lines s) as [|l ls]; [done|].
    by rewrite join_lines_String, IH.
Qed.

Lemma split_join_lines ls :
  ls ≠ [] → Forall (λ l, one_line l = true) ls →
  split_lines (join_lines ls) = ls.
Proof.
  induction ls as [|l ls IH]; [done|]. intros _ [Hl Hls]%Forall_cons.
  destruct ls as [|l' ls]; [by apply split_lines_one_line|].
  rewrite join_lines_cons by done.
  rewrite split_lines_append by done. by rewrite IH.
Qed.

(** X13. The ["\n".join] of [get_page_content] and the [split("\n")] of
    [get_child_pages] are inverse to each other: joining the pieces of any
    string gives the string back, and splitting the join of a non-empty
    list of newline-free texts gives the list back. *)
Theorem split_join_round_trip :
  (∀ s, join_lines (split_lines s) = s)
  ∧ (∀ ls, ls ≠ [] → Forall (λ l, one_line l = true) ls →
       split_lines (join_lines ls) = ls).
Proof. split; [apply join_split_lines | apply split_join_lines]. Qed.

(** ** Concrete runs of the further properties *)

(** X4 on a concrete run. *)
Lemma forgotten_id_stays_unknown_witness :
  dict_get "t1" (tts_tasks (world (state_after
     (deleted_before_start ++ [WorkerStart "t1" None 1 None])))) = None
  ∧ get_tts_status "t1" (world (state_after
       (deleted_before_start ++ [WorkerStart "t1" None 1 None]))) =
      Raise (HTTPException 404 "Task not found")
  ∧ get_tts_result "t1" (world (state_after
       (deleted_before_start ++ [WorkerStart "t1" None 1 None]))) =
      Raise (HTTPException 404 "Task not found").
Proof.
  apply (forgotten_id_stays_unknown (state_after deleted_before_start)
           [WorkerStart "t1" None 1 None]
           (state_after (deleted_before_start ++ [WorkerStart "t1" None 1 None])) "t1").
  - apply state_after_reachable. vm_compute. eauto.
  - vm_compute. reflexivity.
  - vm_compute. reflexivity.
  - vm_compute. reflexivity.
Defined.

(** X2 on a concrete run. *)
Lemma delete_removes_witness :
  "Task t1 deleted successfully" = "Task " +:+ "t1" +:+ " deleted successfully"
  ∧ is_Some (dict_get "t1" (tts_tasks (world_of [("t1", pending_task 0)] ["temp_tts_t1"])))
  ∧ (temp_dir_of "t1" ∉ fs (world_of [] []))
  ∧ get_tts_status "t1" (world_of [] []) = Raise (HTTPException 404 "Task not found")
  ∧ get_tts_result "t1" (world_of [] []) = Raise (HTTPException 404 "Task not found")
  ∧ (∀ rm', delete_tts_task "t1" rm' (world_of [] []) =
              (world_of [] [], Raise (HTTPException 404 "Task not found")))
  ∧ ∀ id', id' ≠ "t1" →
      dict_get id' (tts_tasks (world_of [] [])) =
        dict_get id' (tts_tasks (world_of [("t1", pending_task 0)] ["temp_tts_t1"]))
      ∧ (temp_dir_of id' ∈ fs (world_of [] []) ↔
         temp_dir_of id' ∈ fs (world_of [("t1", pending_task 0)] ["temp_tts_t1"])).
Proof.
  apply (delete_removes "t1" None (world_of [("t1", pending_task 0)] ["temp_tts_t1"])
           (world_of [] []) "Task t1 deleted successfully").
  vm_compute. reflexivity.
Defined.


(** X5 on a concrete run. *)
Lemma created_at_and_request_never_change_witness :
  created_at completed_t1 = created_at (pending_task 0)
  ∧ request completed_t1 = request (pending_task 0).
Proof.
  apply (created_at_and_request_never_change (state_after submitted)
           [WorkerStart "t1" None 1 None; engine_returns]
           (state_after (started ++ [engine_returns])) "t1").
  - apply state_after_reachable. vm_compute. eauto.
  - vm_compute. reflexivity.
  - vm_compute. reflexivity.
  - vm_compute. reflexivity.
Defined.

(** X6 on a concrete run. *)
Lemma completed_at_iff_terminal_witness :
  (status completed_t1 = "pending" ∨ status completed_t1 = "processing"
   ∨ status completed_t1 = "completed" ∨ status completed_t1 = "failed")
  ∧ (is_Some (completed_at completed_t1) ↔
     status completed_t1 = "completed" ∨ status completed_t1 = "failed")
  ∧ get_tts_status "t1" (world (state_after (started ++ [engine_returns]))) =
      Return (TTSStatus.mk "t1" (status completed_t1) (created_at completed_t1)
                (completed_at completed_t1) (output_file completed_t1)
                (error completed_t1)).
Proof.
  apply (completed_at_iff_terminal (state_after (started ++ [engine_returns])) "t1").
  - apply state_after_reachable. vm_compute. eauto.
  - vm_compute. reflexivity.
Defined.

(** X7 on a concrete run. *)
Lemma worker_success_witness :
  WorkerEnded (Return tt) = WorkerEnded (Return tt)
  ∧ fs (world (state_after (started ++ [engine_returns]))) = fs (world (state_after started))
  ∧ get_tts_status "t1" (world (state_after (started ++ [engine_returns]))) =
      Return (TTSStatus.mk "t1" "completed" (created_at processing_t1) (Some 2)
                (Some "temp_tts_t1/rvc_output.wav") None)
  ∧ ("temp_tts_t1/rvc_output.wav" ≠ "" →
     get_tts_result "t1" (world (state_after (started ++ [engine_returns]))) =
       Return "temp_tts_t1/rvc_output.wav")
  ∧ ("temp_tts_t1/rvc_output.wav" = "" →
     get_tts_result "t1" (world (state_after (started ++ [engine_returns]))) =
       Raise (HTTPException 404 "Output file not found"))
  ∧ ∀ id', id' ≠ "t1" →
      dict_get id' (tts_tasks (world (state_after (started ++ [engine_returns])))) =
        dict_get id' (tts_tasks (world (state_after started))).
Proof.
  apply (worker_success (state_after started) "t1" "done" "temp_tts_t1/rvc_output.wav"
           2 None (state_after (started ++ [engine_returns])) (WorkerEnded (Return tt))
           processing_t1).
  - apply state_after_reachable. vm_compute. eauto.
  - vm_compute. reflexivity.
  - vm_compute. reflexivity.
Defined.

(** X9 on a concrete run. *)
Lemma orphaned_worker_witness :
  ∃ s', step (state_after deleted_before_start) (WorkerStart "t1" None 1 None) =
          Some (s', WorkerStarted (Raised (KeyError "t1")))
        ∧ tts_tasks (world s') = tts_tasks (world (state_after deleted_before_start))
        ∧ fs (world s') = {[temp_dir_of "t1"]} ∪ fs (world (state_after deleted_before_start))
        ∧ dict_get "t1" (background s') = None
        ∧ awaiting s' = awaiting (state_after deleted_before_start).
Proof.
  apply (proj1 (orphaned_worker (state_after deleted_before_start) "t1"
                  ltac:(vm_compute; reflexivity)) demo_request 1 None).
  vm_compute. reflexivity.
Defined.

(** X10 on a concrete run. *)
Lemma working_directory_kept_witness :
  temp_dir_of "t1" ∈ fs (world (state_after (started ++ [engine_returns]))).
Proof.
  apply (working_directory_kept (state_after (started ++ [engine_returns])) "t1"
           completed_t1).
  - apply state_after_reachable. vm_compute. eauto.
  - vm_compute. reflexivity.
  - right. reflexivity.
Defined.

(** X11 on a concrete run. *)
Lemma sweeper_dies_with_first_exception_witness :
  sweeper (state_after (one_running ++ [failing_tick; GetStatus "a"])) = false
  ∧ ∀ now' rm',
      step (state_after (one_running ++ [failing_tick; GetStatus "a"]))
        (SweepTick now' rm') = None.
Proof.
  apply (sweeper_dies_with_first_exception (state_after one_running) (48 * hour)
           rmtree_fails_a (state_after (one_running ++ [failing_tick]))
           (OSError "Permission denied") [GetStatus "a"]
           (state_after (one_running ++ [failing_tick; GetStatus "a"]))).
  - vm_compute. reflexivity.
  - vm_compute. reflexivity.
Defined.

(** X12 on a concrete run. *)
Lemma submit_run_fetch_witness :
  ∃ s', run (initial ∅)
          [Submit "t1" 0 demo_request;
           WorkerStart "t1" None 1 None;
           WorkerResume "t1" (EngineReturn "done" "out.wav") 2 None] = Some s'
        ∧ get_tts_status "t1" (world s') =
            Return (TTSStatus.mk "t1" "completed" 0 (Some 2) (Some "out.wav") None)
        ∧ ("out.wav" ≠ "" → get_tts_result "t1" (world s') = Return "out.wav")
        ∧ temp_dir_of "t1" ∈ fs (world s').
Proof.
  apply (submit_run_fetch (initial ∅) "t1" 0 demo_request 1 None "done" "out.wav" 2 None).
  vm_compute. discriminate.
Defined.

(** X8 on a concrete run. *)
Lemma worker_start_failure_witness :
  get_tts_status "t1" (world (state_after (submitted ++ [makedirs_fails]))) =
    Return (TTSStatus.mk "t1" "failed" (created_at (pending_task 0)) (Some 1) None
              (Some "[Errno 13] Permission denied: 'temp_tts_t1'"))
  ∧ (∃ e, WorkerStarted (Raised (OSError "[Errno 13] Permission denied: 'temp_tts_t1'")) =
          WorkerStarted (Raised e))
  ∧ dict_get "t1" (background (state_after (submitted ++ [makedirs_fails]))) = None
  ∧ dict_get "t1" (awaiting (state_after (submitted ++ [makedirs_fails]))) = None
  ∧ (∀ res now' rm',
       step (state_after (submitted ++ [makedirs_fails])) (WorkerResume "t1" res now' rm') = None).
Proof.
  apply (worker_start_failure (state_after submitted) "t1"
           "[Errno 13] Permission denied: 'temp_tts_t1'" 1 None
           (state_after (submitted ++ [makedirs_fails]))
           (WorkerStarted (Raised (OSError "[Errno 13] Permission denied: 'temp_tts_t1'")))
           (pending_task 0)).
  - apply state_after_reachable. vm_compute. eauto.
  - vm_compute. reflexivity.
  - vm_compute. reflexivity.
Defined.

(** X13 on a concrete run. *)
Lemma split_join_round_trip_witness :
  split_lines (join_lines ["Titre"; ""; "Bonjour"]) = ["Titre"; ""; "Bonjour"].
Proof.
  apply (proj2 split_join_round_trip ["Titre"; ""; "Bonjour"]).
  - discriminate.
  - repeat constructor.
Defined.
